(** * Curvee Reactor: the simulation core of [bezier-curve.js]

    A shallow embedding of the class [CurveeReactor]: the cubic Bezier
    evaluator, the spring-damper integrator with its boundary clamp, the
    particle system, and the handlers that decide which point is held.

    Modelling conventions.
    - JavaScript numbers are read as real numbers ([R]): the arithmetic of
      the source is kept operation for operation, rounding, NaN and the
      infinities are left out.
    - Every [{x, y}] object reachable from [this.controlPoints] lives in a
      store ([heap]) and is named by its address, because
      [this.mouse.targetPoint] aliases one of those objects and the source
      compares them with [===].
    - A method is a computation [M A] over the whole object state that may
      raise (a [TypeError] on [undefined.x] is [None]).
    - [Math.random()] reads the next element of a sequence carried by the
      state.
    - [canvas.width] and [canvas.height] are DOM attributes holding
      integers: an assignment converts the number assigned. *)

From Stdlib Require Import Reals Lra Lia.
From stdpp Require Import base option list strings.

Open Scope R_scope.

(** ** Numbers *)

#[global] Instance R_eq_dec : EqDecision R := Req_dec_T.
#[global] Instance R_lt_dec (a b : R) : Decision (a < b) := Rlt_dec a b.
#[global] Instance R_le_dec (a b : R) : Decision (a <= b) := Rle_dec a b.
#[global] Instance R_gt_dec (a b : R) : Decision (a > b) := Rgt_dec a b.

(** [Math.floor] *)
Definition Math_floor (a : R) : Z := Int_part a.

(** The conversion of a number to a WebIDL [unsigned long]: its integer
    part (towards zero), modulo 2^32. *)
Definition IntegerPart (a : R) : Z :=
  if decide (0 <= a) then Int_part a else (- Int_part (- a))%Z.
Definition ToUint32 (a : R) : Z := (IntegerPart a mod 2 ^ 32)%Z.

(** Assignment to [canvas.width] or [canvas.height].  The attribute is an
    [unsigned long] reflecting a content attribute: the number assigned is
    converted, and a value beyond 2147483647 is replaced by the attribute's
    default (300 for the width, 150 for the height).  The result is what a
    later read of the attribute gives. *)
Definition canvas_dimension (default : Z) (a : R) : R :=
  let n := ToUint32 a in
  IZR (if decide (n <= 2147483647)%Z then n else default).

(** ** Data *)

(** A [{x, y}] object: a control point, a rest-pose point or a velocity. *)
Record Vec := mkVec { x : R; y : R }.

(** Address of a control-point object in the store. *)
Definition loc := nat.

(** [this.canvas]: the backing-store size. *)
Record Canvas := mkCanvas { width : R; height : R }.

(** [this.physics] *)
Record Physics := mkPhysics {
  enabled : bool;
  stiffness : R;
  damping : R;
  mouseInfluence : R;
  velocities : list Vec
}.

(** [this.mouse]; [targetPoint] is [null] or a reference to a point object. *)
Record Mouse := mkMouse {
  mouse_x : R; mouse_y : R;
  px : R; py : R;
  vx : R; vy : R;
  isDown : bool;
  targetPoint : option loc
}.

(** An element of [this.particles.list]; [color] is [None] when the palette
    lookup yields [undefined]. *)
Record Particle := mkParticle {
  part_x : R; part_y : R;
  part_vx : R; part_vy : R;
  life : R;
  decay : R;
  size : R;
  color : option string;
  rotation : R
}.

(** [this.particles] *)
Record Particles := mkParticles {
  particles_enabled : bool;
  plist : list Particle;
  colors : list string
}.

(** The object state.  [controlPoints] and [mouse] are optional because the
    source tests them for [undefined] ([!this.controlPoints],
    [this.mouse?.isDown]). *)
Record State := mkState {
  heap : list Vec;
  canvas : Canvas;
  devicePixelRatio : R;
  initialPoints : list Vec;
  controlPoints : option (list loc);
  physics : Physics;
  mouse : option Mouse;
  particles : Particles;
  random : nat -> R
}.

(** Field updates. *)
Definition set_heap (h : list Vec) (s : State) : State :=
  mkState h (canvas s) (devicePixelRatio s) (initialPoints s)
          (controlPoints s) (physics s) (mouse s) (particles s) (random s).
Definition set_canvas (c : Canvas) (s : State) : State :=
  mkState (heap s) c (devicePixelRatio s) (initialPoints s)
          (controlPoints s) (physics s) (mouse s) (particles s) (random s).
Definition set_initialPoints (ps : list Vec) (s : State) : State :=
  mkState (heap s) (canvas s) (devicePixelRatio s) ps
          (controlPoints s) (physics s) (mouse s) (particles s) (random s).
Definition set_controlPoints (cps : option (list loc)) (s : State) : State :=
  mkState (heap s) (canvas s) (devicePixelRatio s) (initialPoints s)
          cps (physics s) (mouse s) (particles s) (random s).
Definition set_physics (ph : Physics) (s : State) : State :=
  mkState (heap s) (canvas s) (devicePixelRatio s) (initialPoints s)
          (controlPoints s) ph (mouse s) (particles s) (random s).
Definition set_mouse (m : option Mouse) (s : State) : State :=
  mkState (heap s) (canvas s) (devicePixelRatio s) (initialPoints s)
          (controlPoints s) (physics s) m (particles s) (random s).
Definition set_particles (ps : Particles) (s : State) : State :=
  mkState (heap s) (canvas s) (devicePixelRatio s) (initialPoints s)
          (controlPoints s) (physics s) (mouse s) ps (random s).
Definition set_random (r : nat -> R) (s : State) : State :=
  mkState (heap s) (canvas s) (devicePixelRatio s) (initialPoints s)
          (controlPoints s) (physics s) (mouse s) (particles s) r.

Definition set_velocities (vs : list Vec) (ph : Physics) : Physics :=
  mkPhysics (enabled ph) (stiffness ph) (damping ph) (mouseInfluence ph) vs.
Definition set_plist (l : list Particle) (ps : Particles) : Particles :=
  mkParticles (particles_enabled ps) l (colors ps).

(** ** Reading the state *)

(** [window.devicePixelRatio || 1] *)
Definition dpi (s : State) : R :=
  if decide (devicePixelRatio s = 0) then 1 else devicePixelRatio s.

(** [this.controlPoints[i]] as a reference; [None] is [undefined]. *)
Definition controlPointRef (s : State) (i : nat) : option loc :=
  cps ← controlPoints s; cps !! i.

(** The object behind [this.controlPoints[i]]; [None] is the [TypeError] of
    reading a field of [undefined]. *)
Definition controlPoint (s : State) (i : nat) : option Vec :=
  l ← controlPointRef s i; heap s !! l.

(** ** Methods as state computations *)

Definition M (A : Type) : Type := State -> option (A * State).

Definition ret {A} (a : A) : M A := fun s => Some (a, s).
Definition bind {A B} (m : M A) (k : A -> M B) : M B :=
  fun s => match m s with
           | Some (a, s') => k a s'
           | None => None
           end.
Definition get : M State := fun s => Some (s, s).
Definition modify (f : State -> State) : M unit := fun s => Some (tt, f s).
(** Reading through a value that may be [undefined] or [null]. *)
Definition lift {A} (o : option A) : M A :=
  fun s => match o with Some a => Some (a, s) | None => None end.

Notation "v <- m ;; k" := (bind m (fun v => k))
  (at level 100, m at next level, right associativity).
Notation "m ;; k" := (bind m (fun _ => k))
  (at level 100, right associativity).

(** [for (const a of l) body(a)] *)
Fixpoint for_each {A} (l : list A) (body : A -> M unit) : M unit :=
  match l with
  | [] => ret tt
  | a :: l' => body a ;; for_each l' body
  end.

(** [for (let i = 0; i < count; i++) body()] *)
Fixpoint repeat_times (count : nat) (body : M unit) : M unit :=
  match count with
  | O => ret tt
  | S n => body ;; repeat_times n body
  end.

(** A fresh [{x, y}] object. *)
Definition alloc (p : Vec) : M loc :=
  fun s => Some (length (heap s), set_heap (heap s ++ [p]) s).

(** [JSON.parse(JSON.stringify(ps))]: a deep copy, every element a new
    object. *)
Fixpoint JSON_copy (ps : list Vec) : M (list loc) :=
  match ps with
  | [] => ret []
  | p :: ps' => l <- alloc p ;; ls <- JSON_copy ps' ;; ret (l :: ls)
  end.

(** [Math.random()] *)
Definition Math_random : M R :=
  fun s => Some (random s O, set_random (fun n => random s (S n)) s).

(** [arr[z]] for a number [z] that is an integer: [undefined] out of range. *)
Definition js_index {A} (arr : list A) (z : Z) : option A :=
  if decide (0 <= z)%Z then arr !! Z.to_nat z else None.

(** ** Canvas and rest pose *)

Definition calculateInitialPoints : M unit :=
  s <- get ;;
  let width := width (canvas s) / dpi s in
  let height := height (canvas s) / dpi s in
  modify (set_initialPoints
            [ {| x := width * 0.15; y := height * 0.6 |};
              {| x := width * 0.35; y := height * 0.2 |};
              {| x := width * 0.65; y := height * 0.2 |};
              {| x := width * 0.85; y := height * 0.6 |} ]) ;;
  s <- get ;;
  match controlPoints s with
  | None => ls <- JSON_copy (initialPoints s) ;;
            modify (set_controlPoints (Some ls))
  | Some _ => ret tt
  end.

(** [resizeCanvas], with [container.clientWidth] (a DOM [long]) as its
    input.  The style and context-scale assignments do not touch the
    modelled state; the canvas attributes hold integers, so both the first
    assignment and the [*= dpi] go through [canvas_dimension]. *)
Definition resizeCanvas (clientWidth : Z) : M unit :=
  modify (set_canvas {| width := canvas_dimension 300 (IZR clientWidth);
                        height := canvas_dimension 150 600 |}) ;;
  s <- get ;;
  let dpi := dpi s in
  modify (set_canvas {| width := canvas_dimension 300 (width (canvas s) * dpi);
                        height := canvas_dimension 150 (height (canvas s) * dpi) |}) ;;
  s <- get ;;
  if negb (from_option isDown false (mouse s))
  then calculateInitialPoints
  else ret tt.

Definition initControlPoints : M unit :=
  calculateInitialPoints ;;
  s <- get ;;
  ls <- JSON_copy (initialPoints s) ;;
  modify (set_controlPoints (Some ls)).

Definition initPhysics : M unit :=
  modify (set_physics {| enabled := true; stiffness := 0.05; damping := 0.90;
                         mouseInfluence := 0.5;
                         velocities := [ {| x := 0; y := 0 |};
                                         {| x := 0; y := 0 |} ] |}) ;;
  s <- get ;;
  modify (set_mouse (Some {| mouse_x := width (canvas s) / (2 * dpi s);
                             mouse_y := height (canvas s) / (2 * dpi s);
                             px := 0; py := 0; vx := 0; vy := 0;
                             isDown := false; targetPoint := None |})).

Definition palette : list string :=
  ["#06b6d4"; "#8b5cf6"; "#3b82f6"; "#10b981"]%string.

Definition initParticles : M unit :=
  modify (set_particles {| particles_enabled := true; plist := [];
                           colors := palette |}).

(** ** Core math functions *)

Definition calculateBezierPoint (t : R) (s : State) : option Vec :=
  let u := 1 - t in
  let tt := t * t in
  let uu := u * u in
  let uuu := uu * u in
  let ttt := tt * t in
  p0 ← controlPoint s 0;
  p1 ← controlPoint s 1;
  p2 ← controlPoint s 2;
  p3 ← controlPoint s 3;
  Some {| x := uuu * x p0 + 3 * uu * t * x p1 + 3 * u * tt * x p2 + ttt * x p3;
          y := uuu * y p0 + 3 * uu * t * y p1 + 3 * u * tt * y p2 + ttt * y p3 |}.

Definition calculateBezierTangent (t : R) (s : State) : option Vec :=
  let u := 1 - t in
  p0 ← controlPoint s 0;
  p1 ← controlPoint s 1;
  p2 ← controlPoint s 2;
  p3 ← controlPoint s 3;
  Some {| x := 3 * u * u * (x p1 - x p0) + 6 * u * t * (x p2 - x p1)
               + 3 * t * t * (x p3 - x p2);
          y := 3 * u * u * (y p1 - y p0) + 6 * u * t * (y p2 - y p1)
               + 3 * t * t * (y p3 - y p2) |}.

(** ** Particle system *)

(** One iteration of the loop of [createParticles]. *)
Definition spawnParticle (x y : R) : M unit :=
  r <- Math_random ;; let angle := r * PI * 2 in
  r <- Math_random ;; let speed := r * 3 + 1 in
  r <- Math_random ;; let life := 0.5 + r * 0.5 in
  rdecay <- Math_random ;;
  rsize <- Math_random ;;
  rcolor <- Math_random ;;
  rrot <- Math_random ;;
  s <- get ;;
  let colors := colors (particles s) in
  let p := {| part_x := x; part_y := y;
              part_vx := cos angle * speed;
              part_vy := sin angle * speed;
              life := life;
              decay := 0.01 + rdecay * 0.02;
              size := 2 + rsize * 4;
              color := js_index colors
                         (Math_floor (rcolor * INR (length colors)));
              rotation := rrot * PI * 2 |} in
  modify (set_particles (set_plist (plist (particles s) ++ [p]) (particles s))).

Definition createParticles (x y : R) (count : nat) : M unit :=
  s <- get ;;
  if negb (particles_enabled (particles s)) then ret tt
  else repeat_times count (spawnParticle x y).

(** The in-place update of one particle in [updateParticles]. *)
Definition advance (p : Particle) : Particle :=
  let x1 := part_x p + part_vx p in
  let y1 := part_y p + part_vy p in
  let vy1 := part_vy p + 0.1 in
  let vx2 := part_vx p * 0.98 in
  let vy2 := vy1 * 0.98 in
  {| part_x := x1; part_y := y1; part_vx := vx2; part_vy := vy2;
     life := life p - decay p;
     decay := decay p; size := size p; color := color p;
     rotation := rotation p + 0.05 |}.

(** The loop of [updateParticles] with [n = i + 1] iterations left, that is
    from index [i] down to [0]; [delete i] is [splice(i, 1)]. *)
Fixpoint updateParticles_from (n : nat) (l : list Particle)
  : option (list Particle) :=
  match n with
  | O => Some l
  | S i =>
      p ← l !! i;
      let p' := advance p in
      let l' := <[i := p']> l in
      updateParticles_from i (if decide (life p' <= 0) then delete i l' else l')
  end.

Definition updateParticles : M unit :=
  s <- get ;;
  let l := plist (particles s) in
  l' <- lift (updateParticles_from (length l) l) ;;
  modify (set_particles (set_plist l' (particles s))).

(** ** Physics simulation *)

(** [applyBoundaries(point, velocity)]: the two argument objects are
    mutated; the model returns their new contents. *)
Definition applyBoundaries (s : State) (point velocity : Vec) : Vec * Vec :=
  let margin := 30 in
  let width := width (canvas s) / dpi s in
  let height := height (canvas s) / dpi s in
  let '(point, velocity) :=
    if decide (x point < margin)
    then ({| x := margin; y := y point |},
          {| x := x velocity * -0.3; y := y velocity |})
    else (point, velocity) in
  let '(point, velocity) :=
    if decide (x point > width - margin)
    then ({| x := width - margin; y := y point |},
          {| x := x velocity * -0.3; y := y velocity |})
    else (point, velocity) in
  let '(point, velocity) :=
    if decide (y point < margin)
    then ({| x := x point; y := margin |},
          {| x := x velocity; y := y velocity * -0.3 |})
    else (point, velocity) in
  let '(point, velocity) :=
    if decide (y point > height - margin)
    then ({| x := x point; y := height - margin |},
          {| x := x velocity; y := y velocity * -0.3 |})
    else (point, velocity) in
  (point, velocity).

(** Writing back a point object and a velocity object. *)
Definition store_point (l : loc) (p : Vec) : M unit :=
  modify (fun s => set_heap (<[l := p]> (heap s)) s).
Definition store_velocity (pointIndex : nat) (v : Vec) : M unit :=
  modify (fun s => set_physics
                     (set_velocities (<[pointIndex := v]> (velocities (physics s)))
                                     (physics s)) s).

(** The body of the loop of [updatePhysics] at index [i]. *)
Definition updatePoint (i : nat) : M unit :=
  s <- get ;;
  let pointIndex := (i - 1)%nat in
  point <- lift (controlPointRef s i) ;;
  velocity <- lift (velocities (physics s) !! pointIndex) ;;
  m <- lift (mouse s) ;;
  if decide (targetPoint m = Some point) then
    store_velocity pointIndex {| x := 0; y := 0 |}
  else
    p <- lift (heap s !! point) ;;
    let canvasWidth := width (canvas s) / dpi s in
    let canvasHeight := height (canvas s) / dpi s in
    let mouseX := mouse_x m / dpi s in
    let mouseY := mouse_y m / dpi s in
    rest <- lift (initialPoints s !! i) ;;
    let targetX := x rest in
    let targetY := y rest in
    let influence := mouseInfluence (physics s) * 0.01 in
    let '(targetX, targetY) :=
      if decide (i = 1%nat)
      then (targetX + (mouseX - canvasWidth / 2) * influence,
            targetY + (mouseY - canvasHeight / 2) * influence)
      else (targetX - (mouseX - canvasWidth / 2) * influence,
            targetY + (mouseY - canvasHeight / 2) * influence) in
    let targetX := targetX + vx m * 0.5 in
    let targetY := targetY + vy m * 0.5 in
    let springForceX := - stiffness (physics s) * (x p - targetX) in
    let springForceY := - stiffness (physics s) * (y p - targetY) in
    let velocity := {| x := x velocity * damping (physics s) + springForceX;
                       y := y velocity * damping (physics s) + springForceY |} in
    let p := {| x := x p + x velocity; y := y p + y velocity |} in
    let '(p, velocity) := applyBoundaries s p velocity in
    store_point point p ;;
    store_velocity pointIndex velocity ;;
    if particles_enabled (particles s)
       && bool_decide (Rabs (x velocity) + Rabs (y velocity) > 0.5)
    then createParticles (x p) (y p) 1
    else ret tt.

Definition updatePhysics : M unit :=
  s <- get ;;
  if negb (enabled (physics s)) then ret tt
  else
    for_each [1; 2]%nat updatePoint ;;
    updateParticles.

(** [n] animation frames, as far as the state is concerned. *)
Fixpoint ticks (n : nat) : M unit :=
  match n with
  | O => ret tt
  | S k => updatePhysics ;; ticks k
  end.

(** ** Pointer handling *)

(** The loop of [getNearestControlPoint] over the indices [idxs]. *)
Fixpoint nearestAmong (idxs : list nat) (x0 y0 threshold : R) (s : State)
  : option (option loc) :=
  match idxs with
  | [] => Some None
  | i :: idxs' =>
      point ← controlPointRef s i;
      p ← heap s !! point;
      let distance := sqrt ((x p - x0) ^ 2 + (y p - y0) ^ 2) in
      if decide (distance < threshold) then Some (Some point)
      else nearestAmong idxs' x0 y0 threshold s
  end.

(** [getNearestControlPoint(x, y, threshold = 30)] *)
Definition getNearestControlPoint (x0 y0 : R) (threshold : R) : M (option loc) :=
  s <- get ;; lift (nearestAmong [1; 2]%nat x0 y0 threshold s).

(** The part of a mouse event and of [getBoundingClientRect()] the handlers
    read. *)
Record MouseEvent := mkEvent { clientX : R; clientY : R }.
Record DOMRect := mkRect { left : R; top : R }.

Definition handleMouseDown (e : MouseEvent) (rect : DOMRect) : M unit :=
  m <- (s <- get ;; lift (mouse s)) ;;
  let m := mkMouse (mouse_x m) (mouse_y m) (px m) (py m) (vx m) (vy m)
                   true (targetPoint m) in
  modify (set_mouse (Some m)) ;;
  s <- get ;;
  let dpi := dpi s in
  let x0 := (clientX e - left rect) * dpi in
  let y0 := (clientY e - top rect) * dpi in
  target <- getNearestControlPoint (x0 / dpi) (y0 / dpi) 30 ;;
  modify (set_mouse (Some (mkMouse (mouse_x m) (mouse_y m) (px m) (py m)
                                   (vx m) (vy m) (isDown m) target))) ;;
  if particles_enabled (particles s)
  then createParticles (x0 / dpi) (y0 / dpi) 15
  else ret tt.

Definition handleMouseMove (e : MouseEvent) (rect : DOMRect) : M unit :=
  s <- get ;;
  m <- lift (mouse s) ;;
  let dpi := dpi s in
  let px1 := mouse_x m in
  let py1 := mouse_y m in
  let x1 := (clientX e - left rect) * dpi in
  let y1 := (clientY e - top rect) * dpi in
  let vx1 := (x1 - px1) * 0.5 in
  let vy1 := (y1 - py1) * 0.5 in
  modify (set_mouse (Some (mkMouse x1 y1 px1 py1 vx1 vy1
                                   (isDown m) (targetPoint m)))) ;;
  match isDown m, targetPoint m with
  | true, Some target => store_point target {| x := x1 / dpi; y := y1 / dpi |}
  | _, _ => ret tt
  end ;;
  if bool_decide (Rabs vx1 > 2) || bool_decide (Rabs vy1 > 2)
  then createParticles (x1 / dpi) (y1 / dpi) 2
  else ret tt.

Definition handleMouseUp : M unit :=
  s <- get ;;
  m <- lift (mouse s) ;;
  modify (set_mouse (Some (mkMouse (mouse_x m) (mouse_y m) (px m) (py m)
                                   (vx m) (vy m) false None))).

Definition reset : M unit :=
  s <- get ;;
  ls <- JSON_copy (initialPoints s) ;;
  modify (set_controlPoints (Some ls)) ;;
  modify (fun s => set_physics
                     (set_velocities [ {| x := 0; y := 0 |}; {| x := 0; y := 0 |} ]
                                     (physics s)) s) ;;
  modify (fun s => set_particles (set_plist [] (particles s)) s) ;;
  s <- get ;;
  if particles_enabled (particles s)
  then
    let width := width (canvas s) / dpi s in
    let height := height (canvas s) / dpi s in
    createParticles (width / 2) (height / 2) 30
  else ret tt.

(** The constructor as far as the simulation state goes: it starts from an
    object whose fields are not yet assigned ([controlPoints] and [mouse]
    are [undefined]; the other fields hold values no method reads before
    the constructor assigns them). *)
Definition blank (dpr : R) (rnd : nat -> R) : State :=
  {| heap := []; canvas := {| width := 300; height := 150 |};
     devicePixelRatio := dpr; initialPoints := []; controlPoints := None;
     physics := {| enabled := false; stiffness := 0; damping := 0;
                   mouseInfluence := 0; velocities := [] |};
     mouse := None;
     particles := {| particles_enabled := false; plist := []; colors := [] |};
     random := rnd |}.

(** [animate], as far as the state goes: one physics tick.  [render] only
    draws, and the next frame is requested from the browser, not run. *)
Definition animate : M unit := updatePhysics.

(** [initCanvas] is the first resize; [initEventListeners] and [initUI]
    only register handlers; the constructor ends by running the first
    frame. *)
Definition constructor (clientWidth : Z) : M unit :=
  resizeCanvas clientWidth ;;
  initControlPoints ;;
  initPhysics ;;
  initParticles ;;
  animate.

(** ** More pointer handlers *)

Definition handleMouseLeave : M unit :=
  s <- get ;;
  m <- lift (mouse s) ;;
  modify (set_mouse (Some (mkMouse (mouse_x m) (mouse_y m) (px m) (py m)
                                   (vx m) (vy m) false None))).

(** The part of a touch event the handlers read: [e.touches], each touch
    with its client coordinates. *)
Record Touch := mkTouch { touch_clientX : R; touch_clientY : R }.
Record TouchEvent := mkTouchEvent { touches : list Touch }.

Definition handleTouchMove (e : TouchEvent) (rect : DOMRect) : M unit :=
  touch <- lift (touches e !! 0%nat) ;;
  s <- get ;;
  m <- lift (mouse s) ;;
  let dpi := dpi s in
  let x1 := (touch_clientX touch - left rect) * dpi in
  let y1 := (touch_clientY touch - top rect) * dpi in
  modify (set_mouse (Some (mkMouse x1 y1 (px m) (py m) (vx m) (vy m)
                                   (isDown m) (targetPoint m)))) ;;
  match isDown m, targetPoint m with
  | true, Some target => store_point target {| x := x1 / dpi; y := y1 / dpi |}
  | _, _ => ret tt
  end.

Definition handleTouchStart (e : TouchEvent) (rect : DOMRect) : M unit :=
  touch <- lift (touches e !! 0%nat) ;;
  s <- get ;;
  m <- lift (mouse s) ;;
  let dpi := dpi s in
  let x1 := (touch_clientX touch - left rect) * dpi in
  let y1 := (touch_clientY touch - top rect) * dpi in
  let m := mkMouse x1 y1 (px m) (py m) (vx m) (vy m) true (targetPoint m) in
  modify (set_mouse (Some m)) ;;
  target <- getNearestControlPoint (mouse_x m / dpi) (mouse_y m / dpi) 30 ;;
  modify (set_mouse (Some (mkMouse (mouse_x m) (mouse_y m) (px m) (py m)
                                   (vx m) (vy m) (isDown m) target))).

Definition handleTouchEnd : M unit :=
  s <- get ;;
  m <- lift (mouse s) ;;
  modify (set_mouse (Some (mkMouse (mouse_x m) (mouse_y m) (px m) (py m)
                                   (vx m) (vy m) false None))).

(** ** Controls *)

(** [togglePhysics]; the status text and the button label are not part of
    the modelled state. *)
Definition togglePhysics : M unit :=
  modify (fun s =>
            set_physics (mkPhysics (negb (enabled (physics s)))
                                   (stiffness (physics s)) (damping (physics s))
                                   (mouseInfluence (physics s))
                                   (velocities (physics s))) s).

(** An entry of the [presets] table of [applyPreset]. *)
Record Preset := mkPreset {
  preset_stiffness : R;
  preset_damping : R;
  preset_influence : R
}.

Definition presets : list (string * Preset) :=
  [ ("bouncy",   {| preset_stiffness := 0.02; preset_damping := 0.85; preset_influence := 0.8 |});
    ("stiff",    {| preset_stiffness := 0.1;  preset_damping := 0.95; preset_influence := 0.3 |});
    ("fluid",    {| preset_stiffness := 0.03; preset_damping := 0.9;  preset_influence := 1.2 |});
    ("magnetic", {| preset_stiffness := 0.05; preset_damping := 0.92; preset_influence := 1.5 |});
    ("heavy",    {| preset_stiffness := 0.08; preset_damping := 0.98; preset_influence := 0.4 |});
    ("light",    {| preset_stiffness := 0.01; preset_damping := 0.8;  preset_influence := 2.0 |})
  ]%string.

(** The property names an object literal inherits from [Object.prototype]. *)
Definition Object_prototype : list string :=
  [ "constructor"; "hasOwnProperty"; "isPrototypeOf"; "propertyIsEnumerable";
    "toLocaleString"; "toString"; "valueOf"; "__proto__";
    "__defineGetter__"; "__defineSetter__"; "__lookupGetter__";
    "__lookupSetter__" ]%string.

(** What [presets[preset]] evaluates to: an entry of the table, an
    inherited property (an object or function, truthy, with none of the
    three fields), or [undefined]. *)
Inductive Property :=
| Own (p : Preset)
| Inherited
| Undefined.

Fixpoint own_property (key : string) (table : list (string * Preset))
  : option Preset :=
  match table with
  | [] => None
  | (k, p) :: table' => if decide (k = key) then Some p else own_property key table'
  end.

Definition presets_get (key : string) : Property :=
  match own_property key presets with
  | Some p => Own p
  | None => if decide (key ∈ Object_prototype) then Inherited else Undefined
  end.

(** [applyPreset(preset)].  The slider and label updates do not touch the
    modelled state; on an inherited property the three fields are
    [undefined] and [stiffness.toFixed(2)] raises. *)
Definition applyPreset (preset : string) : M unit :=
  match presets_get preset with
  | Undefined => ret tt
  | Inherited => lift None
  | Own p =>
      modify (fun s =>
                set_physics (mkPhysics (enabled (physics s))
                                       (preset_stiffness p) (preset_damping p)
                                       (preset_influence p)
                                       (velocities (physics s))) s) ;;
      s <- get ;;
      if particles_enabled (particles s)
      then createParticles (width (canvas s) / (2 * dpi s))
                           (height (canvas s) / (2 * dpi s)) 20
      else ret tt
  end.

(** ** Rendering: the tangent marks *)

(** The calls and assignments [drawTangents] makes on the 2D context, in
    order. *)
Inductive CtxOp :=
| SetStrokeStyle (style : string)
| SetLineWidth (w : R)
| SetLineCap (cap : string)
| SetFillStyle (style : string)
| BeginPath
| MoveTo (x y : R)
| LineTo (x y : R)
| Stroke
| Arc (x y radius startAngle endAngle : R)
| Fill.

Definition tangentPoints : list R := [0.1; 0.3; 0.5; 0.7; 0.9].

(** The body of the loop of [drawTangents] at parameter [t]. *)
Definition drawTangentAt (t : R) (s : State) : option (list CtxOp) :=
  point ← calculateBezierPoint t s;
  tangent ← calculateBezierTangent t s;
  let length := sqrt (x tangent * x tangent + y tangent * y tangent) in
  if decide (length = 0) then Some []
  else
    let nx := x tangent / length in
    let ny := y tangent / length in
    Some [ BeginPath;
           MoveTo (x point - nx * 25) (y point - ny * 25);
           LineTo (x point + nx * 25) (y point + ny * 25);
           Stroke;
           BeginPath;
           Arc (x point) (y point) 4 0 (PI * 2);
           SetFillStyle "#f59e0b";
           Fill ].

(** [for (const t of ts) ...], collecting what is drawn. *)
Fixpoint drawTangentsAt (ts : list R) (s : State) : option (list CtxOp) :=
  match ts with
  | [] => Some []
  | t :: ts' =>
      ops ← drawTangentAt t s;
      rest ← drawTangentsAt ts' s;
      Some (ops ++ rest)
  end.

Definition drawTangents (s : State) : option (list CtxOp) :=
  ops ← drawTangentsAt tangentPoints s;
  Some ([ SetStrokeStyle "#f59e0b"; SetLineWidth 2; SetLineCap "round" ] ++ ops).

(** * Specification vocabulary and sample states *)

(** What a computation that only touches the particle collection and the
    random sequence leaves alone. *)
Definition same_core (s s' : State) : Prop :=
  heap s' = heap s /\ canvas s' = canvas s /\
  devicePixelRatio s' = devicePixelRatio s /\
  initialPoints s' = initialPoints s /\
  controlPoints s' = controlPoints s /\
  physics s' = physics s /\ mouse s' = mouse s /\
  particles_enabled (particles s') = particles_enabled (particles s) /\
  colors (particles s') = colors (particles s).

(** What the source gives a particle spawned at [(x0, y0)].  The upper
    ends of life, decay and size are closed: the sums [0.5 + r * 0.5],
    [0.01 + r * 0.02] and [2 + r * 4] stay below them for every real
    [r < 1], but rounded to binary64 they reach them for [r] next to 1. *)
Definition spawned_at (x0 y0 : R) (p : Particle) : Prop :=
  part_x p = x0 /\ part_y p = y0 /\
  (exists angle speed,
      0 <= angle < 2 * PI /\ 1 <= speed < 4 /\
      part_vx p = cos angle * speed /\ part_vy p = sin angle * speed /\
      sqrt (part_vx p ^ 2 + part_vy p ^ 2) = speed) /\
  0.5 <= life p <= 1 /\
  0.01 <= decay p <= 0.03 /\
  2 <= size p <= 6 /\
  (exists c, color p = Some c /\ c ∈ palette).

(** A running reactor on an 800 x 600 surface at pixel ratio 1, every point
    but P1 at its rest pose; the switches, the position and velocity of P1
    and the pointer's button and target are left open. *)
Definition reactor_800 (physics_on particles_on : bool) (p1 v1 : Vec)
    (down : bool) (target : option loc) : State :=
  {| heap := [ {| x := 120; y := 360 |}; p1;
               {| x := 520; y := 120 |}; {| x := 680; y := 360 |} ];
     canvas := {| width := 800; height := 600 |};
     devicePixelRatio := 1;
     initialPoints := [ {| x := 120; y := 360 |}; {| x := 280; y := 120 |};
                        {| x := 520; y := 120 |}; {| x := 680; y := 360 |} ];
     controlPoints := Some [0; 1; 2; 3]%nat;
     physics := {| enabled := physics_on; stiffness := 0.05; damping := 0.90;
                   mouseInfluence := 0.5;
                   velocities := [ v1; {| x := 0; y := 0 |} ] |};
     mouse := Some {| mouse_x := 400; mouse_y := 300; px := 0; py := 0;
                      vx := 0; vy := 0; isDown := down; targetPoint := target |};
     particles := {| particles_enabled := particles_on; plist := [];
                     colors := palette |};
     random := fun _ => 0.5 |}.

(** At rest, everything switched on. *)
Definition resting_state : State :=
  reactor_800 true true {| x := 280; y := 120 |} {| x := 0; y := 0 |} false None.

(** At rest with the particle effects switched off. *)
Definition quiet_state : State :=
  reactor_800 true false {| x := 280; y := 120 |} {| x := 0; y := 0 |} false None.

(** P1 held by the pointer while its velocity is still [(5, -3)]. *)
Definition dragging_state (physics_on : bool) : State :=
  reactor_800 physics_on true {| x := 300; y := 200 |} {| x := 5; y := -3 |}
              true (Some 1%nat).

(** Two particles in flight on the resting reactor: the first expires at
    the next tick, the second does not. *)
Definition sparks : list Particle :=
  [ {| part_x := 400; part_y := 300; part_vx := 1; part_vy := -2;
       life := 0.02; decay := 0.02; size := 3; color := Some "#06b6d4"%string;
       rotation := 0 |};
    {| part_x := 410; part_y := 290; part_vx := -1; part_vy := 0;
       life := 0.9; decay := 0.01; size := 4; color := Some "#10b981"%string;
       rotation := 1 |} ].

Definition sparks_state : State :=
  set_particles (set_plist sparks (particles resting_state)) resting_state.

(** The coordinates of the curve as functions of the parameter ([0] where
    the evaluator raises). *)
Definition curve_x (s : State) (t : R) : R :=
  from_option x 0 (calculateBezierPoint t s).
Definition curve_y (s : State) (t : R) : R :=
  from_option y 0 (calculateBezierPoint t s).

(** The derivative formula of a cubic Bezier curve on one axis. *)
Definition hodograph (a0 a1 a2 a3 t : R) : R :=
  3 * (1 - t) ^ 2 * (a1 - a0) + 6 * (1 - t) * t * (a2 - a1)
  + 3 * t ^ 2 * (a3 - a2).

(** The shape every method finds and leaves once the constructor has run:
    four distinct point objects, four rest-pose points, two velocities and
    a mouse record. *)
Record wf (s : State) : Prop := mk_wf {
  wf_points :
    exists l0 l1 l2 l3,
      controlPoints s = Some [l0; l1; l2; l3] /\
      NoDup [l0; l1; l2; l3] /\
      Forall (fun l => (l < length (heap s))%nat) [l0; l1; l2; l3];
  wf_rest : length (initialPoints s) = 4%nat;
  wf_velocities : length (velocities (physics s)) = 2%nat;
  wf_mouse : is_Some (mouse s)
}.

(** What a physics tick never changes. *)
Definition tick_frame (s s' : State) : Prop :=
  canvas s' = canvas s /\
  devicePixelRatio s' = devicePixelRatio s /\
  initialPoints s' = initialPoints s /\
  controlPoints s' = controlPoints s /\
  mouse s' = mouse s /\
  enabled (physics s') = enabled (physics s) /\
  stiffness (physics s') = stiffness (physics s) /\
  damping (physics s') = damping (physics s) /\
  mouseInfluence (physics s') = mouseInfluence (physics s) /\
  length (heap s') = length (heap s) /\
  length (velocities (physics s')) = length (velocities (physics s)).

(** [this.physics.velocities[i - 1]], the velocity of control point [i]. *)
Definition velocityOf (s : State) (i : nat) : option Vec :=
  velocities (physics s) !! (i - 1)%nat.

(** Control point [i] is the pointer's target: it is under manual control. *)
Definition held (s : State) (i : nat) : Prop :=
  exists m l, mouse s = Some m /\ controlPointRef s i = Some l /\
              targetPoint m = Some l.

(** Control point [i] has rest-pose position [p] inside the margins, the
    pointer is at the centre of the surface and its derived velocity is
    zero. *)
Definition undisturbed (s : State) (i : nat) (p : Vec) : Prop :=
  let W := width (canvas s) / dpi s in
  let H := height (canvas s) / dpi s in
  exists m, mouse s = Some m /\
            vx m = 0 /\ vy m = 0 /\
            mouse_x m / dpi s = W / 2 /\ mouse_y m / dpi s = H / 2 /\
            initialPoints s !! i = Some p /\
            30 <= x p <= W - 30 /\ 30 <= y p <= H - 30.

(** Control point [i] sits at [p] with zero velocity. *)
Definition at_rest (s : State) (i : nat) (p : Vec) : Prop :=
  controlPoint s i = Some p /\ velocityOf s i = Some {| x := 0; y := 0 |}.

(** The rest pose on a surface of [W] by [H] units. *)
Definition rest_pose (W H : R) : list Vec :=
  [ {| x := W * 0.15; y := H * 0.6 |}; {| x := W * 0.35; y := H * 0.2 |};
    {| x := W * 0.65; y := H * 0.2 |}; {| x := W * 0.85; y := H * 0.6 |} ].

(** [!this.mouse?.isDown] is false: the pointer is pressed. *)
Definition pointer_down (s : State) : bool :=
  from_option isDown false (mouse s).


(** The canvas size a resize stores for a container [clientWidth] wide. *)
Definition backing_store (clientWidth : Z) (s : State) : Canvas :=
  {| width := canvas_dimension 300 (canvas_dimension 300 (IZR clientWidth) * dpi s);
     height := canvas_dimension 150 (canvas_dimension 150 600 * dpi s) |}.

(** The state a resize leaves. *)
Definition resized (clientWidth : Z) (s : State) : State :=
  let s1 := set_canvas (backing_store clientWidth s) s in
  let pose := rest_pose (width (canvas s1) / dpi s1) (height (canvas s1) / dpi s1) in
  if pointer_down s then s1
  else match controlPoints s with
       | Some _ => set_initialPoints pose s1
       | None => set_controlPoints (Some (seq (length (heap s)) 4))
                   (set_heap (heap s ++ pose) (set_initialPoints pose s1))
       end.

(** ** Vocabulary for the further properties *)

(** A point moved by the vector [V]. *)
Definition translate (V p : Vec) : Vec :=
  {| x := x p + x V; y := y p + y V |}.

(** The resting reactor with every point object moved by (10, -20). *)
Definition shifted_state : State :=
  set_heap (translate {| x := 10; y := -20 |} <$> heap resting_state) resting_state.

(** The point [p] lies in the box [xlo, xhi] x [ylo, yhi]. *)
Definition in_box (xlo xhi ylo yhi : R) (p : Vec) : Prop :=
  xlo <= x p <= xhi /\ ylo <= y p <= yhi.

(** The surface size in surface units, as every method computes it. *)
Definition surfaceWidth (s : State) : R := width (canvas s) / dpi s.
Definition surfaceHeight (s : State) : R := height (canvas s) / dpi s.

(** The target of movable point [i]: its rest pose, offset by the pointer's
    distance from the centre scaled by the influence (mirrored in x for
    P2), plus half the pointer velocity. *)
Definition spring_target (i : nat) (s : State) : option Vec :=
  m ← mouse s;
  rest ← initialPoints s !! i;
  let influence := mouseInfluence (physics s) * 0.01 in
  let dx := (mouse_x m / dpi s - surfaceWidth s / 2) * influence in
  let dy := (mouse_y m / dpi s - surfaceHeight s / 2) * influence in
  Some {| x := (if decide (i = 1%nat) then x rest + dx else x rest - dx)
               + vx m * 0.5;
          y := y rest + dy + vy m * 0.5 |}.

(** One tick of the integrator on movable point [i], stated step by step:
    Hooke force towards the target, damped velocity update, position
    update, boundary clamp.  The result is the new position and velocity. *)
Definition integrator_step (i : nat) (s : State) : option (Vec * Vec) :=
  target ← spring_target i s;
  p ← controlPoint s i;
  v ← velocityOf s i;
  let force := {| x := - stiffness (physics s) * (x p - x target);
                  y := - stiffness (physics s) * (y p - y target) |} in
  let v1 := {| x := x v * damping (physics s) + x force;
               y := y v * damping (physics s) + y force |} in
  let p1 := {| x := x p + x v1; y := y p + y v1 |} in
  Some (applyBoundaries s p1 v1).

(** The resting reactor with P1 pushed off its rest pose and moving. *)
Definition moving_state : State :=
  reactor_800 true true {| x := 700; y := 40 |} {| x := 90; y := -25 |} false None.

(** The state in which the constructor starts its first frame, the canvas
    being [c] and the pixel ratio [dpr]: two deep copies of the rest pose
    have been made, the second one being the control points. *)
Definition initialised_on (c : Canvas) (dpr : R) (rnd : nat -> R) : State :=
  let d := dpi (blank dpr rnd) in
  let pose := rest_pose (width c / d) (height c / d) in
  {| heap := pose ++ pose;
     canvas := c;
     devicePixelRatio := dpr;
     initialPoints := pose;
     controlPoints := Some [4; 5; 6; 7]%nat;
     physics := {| enabled := true; stiffness := 0.05; damping := 0.90;
                   mouseInfluence := 0.5;
                   velocities := [ {| x := 0; y := 0 |}; {| x := 0; y := 0 |} ] |};
     mouse := Some {| mouse_x := width c / (2 * d);
                      mouse_y := height c / (2 * d);
                      px := 0; py := 0; vx := 0; vy := 0;
                      isDown := false; targetPoint := None |};
     particles := {| particles_enabled := true; plist := []; colors := palette |};
     random := rnd |}.

(** That state on a container [clientWidth] wide. *)
Definition initialised (clientWidth : Z) (dpr : R) (rnd : nat -> R) : State :=
  initialised_on (backing_store clientWidth (blank dpr rnd)) dpr rnd.

(** Two particles as [createParticles] makes them, at the ends of the
    ranges: the shortest and the longest life there is. *)
Definition fresh_sparks : list Particle :=
  [ {| part_x := 400; part_y := 300; part_vx := 1; part_vy := -2;
       life := 0.5; decay := 0.03; size := 3; color := Some "#06b6d4"%string;
       rotation := 0 |};
    {| part_x := 400; part_y := 300; part_vx := -3; part_vy := 0.5;
       life := 1; decay := 0.01; size := 5; color := Some "#8b5cf6"%string;
       rotation := 2 |} ].

Definition fresh_sparks_state : State :=
  set_particles (set_plist fresh_sparks (particles resting_state)) resting_state.

(** The pointer position of an event in surface units. *)
Definition pointer (e : MouseEvent) (rect : DOMRect) : Vec :=
  {| x := clientX e - left rect; y := clientY e - top rect |}.

(** Euclidean distance. *)
Definition distance (p q : Vec) : R :=
  sqrt ((x p - x q) ^ 2 + (y p - y q) ^ 2).

(** The index of the movable point a press at [q] grabs, P1 being at [p1]
    and P2 at [p2]: P1 when it is within 30 units, else P2 when that one
    is, else none. *)
Definition grabbed (q p1 p2 : Vec) : option nat :=
  if decide (distance p1 q < 30) then Some 1%nat
  else if decide (distance p2 q < 30) then Some 2%nat
  else None.

(** No control point is the pointer's target. *)
Definition none_held (s : State) : Prop := forall i, ~ held s i.

(** The pointer's target, if any, is an allocated object. *)
Definition target_allocated (s : State) : Prop :=
  forall m l, mouse s = Some m -> targetPoint m = Some l ->
              (l < length (heap s))%nat.

(** The state a mouse move leaves, before its particle burst: the pointer
    record is renewed and the held object, if the button is down, is
    written through the target reference. *)
Definition moved (e : MouseEvent) (rect : DOMRect) (s : State) (m : Mouse) : State :=
  let x1 := (clientX e - left rect) * dpi s in
  let y1 := (clientY e - top rect) * dpi s in
  let s1 := set_mouse (Some (mkMouse x1 y1 (mouse_x m) (mouse_y m)
                                     ((x1 - mouse_x m) * 0.5) ((y1 - mouse_y m) * 0.5)
                                     (isDown m) (targetPoint m))) s in
  match isDown m, targetPoint m with
  | true, Some target =>
      set_heap (<[target := {| x := x1 / dpi s; y := y1 / dpi s |}]> (heap s)) s1
  | _, _ => s1
  end.

(** The pointer moved fast enough for a burst. *)
Definition fast (m : Mouse) : bool :=
  bool_decide (Rabs (vx m) > 2) || bool_decide (Rabs (vy m) > 2).

(** The position of a touch in surface units. *)
Definition touch_point (t : Touch) (rect : DOMRect) : Vec :=
  {| x := touch_clientX t - left rect; y := touch_clientY t - top rect |}.

(** The pointer record with a new position and nothing else changed. *)
Definition reposition (x1 y1 : R) (m : Mouse) : Mouse :=
  mkMouse x1 y1 (px m) (py m) (vx m) (vy m) (isDown m) (targetPoint m).

(** All four control points in one place. *)
Definition collapsed_state : State :=
  set_heap (replicate 4 {| x := 400; y := 300 |}) resting_state.


(** A reactor with the particle effects switched off while P1 is moving
    and two particles are still in flight. *)
Definition muted_state : State :=
  set_particles {| particles_enabled := false; plist := sparks;
                   colors := palette |} moving_state.
(** * Properties *)

Lemma Vec_eq (a b : Vec) : x a = x b -> y a = y b -> a = b.
Proof. destruct a, b; simpl; intros -> ->; reflexivity. Qed.

(** C1: with control points P0..P3 in place, [calculateBezierPoint(0)] is
    P0 and [calculateBezierPoint(1)] is P3, componentwise. *)
Theorem calculateBezierPoint_endpoints (s : State) (p0 p1 p2 p3 : Vec) :
  controlPoint s 0 = Some p0 ->
  controlPoint s 1 = Some p1 ->
  controlPoint s 2 = Some p2 ->
  controlPoint s 3 = Some p3 ->
  calculateBezierPoint 0 s = Some p0 /\ calculateBezierPoint 1 s = Some p3.
Proof.
  intros H0 H1 H2 H3. unfold calculateBezierPoint.
  rewrite H0, H1, H2, H3. simpl.
  split; f_equal; apply Vec_eq; simpl; ring.
Qed.

(** ** Running a computation *)

Lemma bind_Some {A B} (m : M A) (k : A -> M B) s a s1 :
  m s = Some (a, s1) -> bind m k s = k a s1.
Proof. intros H. unfold bind. rewrite H. reflexivity. Qed.

Lemma dpi_nonzero (s : State) : dpi s <> 0.
Proof. unfold dpi. destruct (decide (devicePixelRatio s = 0)); lra. Qed.

Lemma same_core_refl s : same_core s s.
Proof. unfold same_core; tauto. Qed.

Lemma same_core_trans s1 s2 s3 :
  same_core s1 s2 -> same_core s2 s3 -> same_core s1 s3.
Proof. unfold same_core; intuition congruence. Qed.

(** ** Spawning particles *)

Lemma Math_floor_range (a : R) (n : Z) :
  0 <= a < IZR n -> (0 <= Math_floor a < n)%Z.
Proof.
  intros [Ha0 Han]. unfold Math_floor.
  destruct (base_Int_part a) as [Hle Hgt].
  split.
  - assert (IZR (-1) < IZR (Int_part a)) as H by lra.
    apply lt_IZR in H. lia.
  - apply lt_IZR. lra.
Qed.

Lemma palette_pick (r : R) :
  0 <= r < 1 ->
  exists c, js_index palette (Math_floor (r * INR (length palette))) = Some c
            /\ c ∈ palette.
Proof.
  intros Hr.
  assert (0 <= Math_floor (r * INR (length palette)) < 4)%Z as Hz.
  { apply Math_floor_range. simpl. lra. }
  unfold js_index. destruct (decide _) as [_|]; [|lia].
  destruct (palette !! Z.to_nat (Math_floor (r * INR (length palette))))
    as [c|] eqn:Hc.
  - exists c. split; [reflexivity|]. eapply list_elem_of_lookup_2, Hc.
  - apply lookup_ge_None in Hc.
    change (length palette) with 4%nat in Hc at 1. lia.
Qed.

Lemma speed_magnitude (angle speed : R) :
  0 <= speed ->
  sqrt ((cos angle * speed) ^ 2 + (sin angle * speed) ^ 2) = speed.
Proof.
  intros Hs.
  replace ((cos angle * speed) ^ 2 + (sin angle * speed) ^ 2)
    with (((sin angle)² + (cos angle)²) * speed²) by (unfold Rsqr; ring).
  rewrite sin2_cos2, Rmult_1_l. apply sqrt_Rsqr, Hs.
Qed.

(** One pass of the loop body: seven draws, one particle appended. *)
Lemma spawnParticle_spec (x0 y0 : R) (s : State) :
  exists p s',
    spawnParticle x0 y0 s = Some (tt, s') /\
    same_core s s' /\
    plist (particles s') = plist (particles s) ++ [p] /\
    random s' = (fun n => random s (7 + n)%nat) /\
    ((forall n, (n < 7)%nat -> 0 <= random s n < 1) ->
     colors (particles s) = palette -> spawned_at x0 y0 p).
Proof.
  eexists _, _.
  split; [cbv [spawnParticle bind Math_random get modify]; reflexivity|].
  simpl.
  split; [unfold same_core; simpl; tauto|].
  split; [reflexivity|]. split; [reflexivity|].
  intros Hr Hpal.
  pose proof (Hr 0%nat ltac:(lia)) as H0. pose proof (Hr 1%nat ltac:(lia)) as H1.
  pose proof (Hr 2%nat ltac:(lia)) as H2. pose proof (Hr 3%nat ltac:(lia)) as H3.
  pose proof (Hr 4%nat ltac:(lia)) as H4. pose proof (Hr 5%nat ltac:(lia)) as H5.
  pose proof PI_RGT_0 as Hpi.
  unfold spawned_at; simpl.
  split; [reflexivity|]. split; [reflexivity|].
  split.
  { exists (random s 0%nat * PI * 2), (random s 1%nat * 3 + 1).
    split; [nra|]. split; [lra|]. split; [reflexivity|]. split; [reflexivity|].
    apply speed_magnitude. lra. }
  split; [lra|]. split; [lra|]. split; [lra|].
  rewrite Hpal. apply palette_pick, H5.
Qed.

Lemma repeat_spawn_spec (x0 y0 : R) (count : nat) : forall s,
  exists new s',
    repeat_times count (spawnParticle x0 y0) s = Some (tt, s') /\
    same_core s s' /\
    plist (particles s') = plist (particles s) ++ new /\
    length new = count /\
    (forall n, random s' n = random s (7 * count + n)%nat) /\
    ((forall n, (n < 7 * count)%nat -> 0 <= random s n < 1) ->
     colors (particles s) = palette -> Forall (spawned_at x0 y0) new).
Proof.
  induction count as [|count IH]; intros s.
  - exists [], s. simpl. rewrite app_nil_r.
    repeat split; auto using same_core_refl.
  - destruct (spawnParticle_spec x0 y0 s) as (p & s1 & Hrun & Hcore & Hl & Hrnd & Hp).
    destruct (IH s1) as (new & s' & Hrun' & Hcore' & Hl' & Hlen & Hrnd' & Hnew).
    exists (p :: new), s'. simpl repeat_times.
    rewrite (bind_Some _ _ _ _ _ Hrun).
    split; [exact Hrun'|].
    split; [eapply same_core_trans; eassumption|].
    split; [rewrite Hl', Hl, <- app_assoc; reflexivity|].
    split; [simpl; congruence|].
    split.
    + intros n. rewrite Hrnd', Hrnd. f_equal. lia.
    + intros Hr Hpal. constructor.
      * apply Hp; [|exact Hpal]. intros n Hn. apply Hr. lia.
      * apply Hnew.
        -- intros n Hn. rewrite Hrnd. apply Hr. lia.
        -- destruct Hcore as (_ & _ & _ & _ & _ & _ & _ & _ & Hc). congruence.
Qed.

Lemma createParticles_ok (x0 y0 : R) (count : nat) (s : State) :
  exists s', createParticles x0 y0 count s = Some (tt, s') /\ same_core s s'.
Proof.
  unfold createParticles, bind, get.
  destruct (particles_enabled (particles s)); simpl.
  - destruct (repeat_spawn_spec x0 y0 count s) as (new & s' & Hrun & Hcore & _).
    exists s'. split; assumption.
  - exists s. split; [reflexivity|apply same_core_refl].
Qed.

(** C9, as stated, fails when the particle effects are off: a spawn of one
    particle at the origin leaves the collection empty. *)
Lemma createParticles_disabled_spawns_nothing :
  exists s',
    createParticles 0 0 1 quiet_state = Some (tt, s') /\
    plist (particles quiet_state) = [] /\
    plist (particles s') = [] /\
    ~ (exists new, plist (particles s') = plist (particles quiet_state) ++ new
                   /\ length new = 1%nat).
Proof.
  exists quiet_state. split; [reflexivity|].
  split; [reflexivity|]. split; [reflexivity|].
  intros (new & Hnew & Hlen). simpl in Hnew. subst new. discriminate.
Qed.

(** C9 (amended): with the particle effects enabled, the fixed palette in
    place and [Math.random] in [0, 1), a spawn of [count] particles at
    [(x0, y0)] appends exactly [count] particles to the collection, each at
    the origin with speed in [1, 4), life in [0.5, 1], decay in
    [0.01, 0.03], size in [2, 6] and a palette colour, and keeps the
    earlier particles as they were; with the effects disabled the
    collection is left as it is. *)
Theorem createParticles_spawns (x0 y0 : R) (count : nat) (s : State) :
  colors (particles s) = palette ->
  (forall n, 0 <= random s n < 1) ->
  (particles_enabled (particles s) = true ->
   exists new s',
     createParticles x0 y0 count s = Some (tt, s') /\
     plist (particles s') = plist (particles s) ++ new /\
     length new = count /\
     Forall (spawned_at x0 y0) new) /\
  (particles_enabled (particles s) = false ->
   createParticles x0 y0 count s = Some (tt, s)).
Proof.
  intros Hpal Hr. unfold createParticles, bind, get. split; intros Hen;
    rewrite Hen; simpl; [|reflexivity].
  destruct (repeat_spawn_spec x0 y0 count s)
    as (new & s' & Hrun & _ & Hl & Hlen & _ & Hnew).
  exists new, s'. repeat split; auto.
Qed.

(** A concrete spawn: two particles at the centre of the sample reactor. *)
Lemma createParticles_spawns_witness :
  exists new s',
    createParticles 400 300 2 resting_state = Some (tt, s') /\
    plist (particles s') = plist (particles resting_state) ++ new /\
    length new = 2%nat /\
    Forall (spawned_at 400 300) new.
Proof.
  apply (createParticles_spawns 400 300 2 resting_state).
  - reflexivity.
  - intros n. simpl. lra.
  - reflexivity.
Defined.

(** ** Boundary clamp *)

(** Case analysis on the tests of a straight-line sequence of [if]s, in
    the order the program runs them. *)
Ltac split_decide :=
  match goal with
  | |- context [decide ?P] =>
      lazymatch P with
      | context [decide _] => fail
      | _ => destruct (decide P); simpl
      end
  end.
Ltac split_decides := repeat split_decide.

(** C4: on a surface at least 60 wide and 60 high the clamp leaves the
    point inside [30, width - 30] x [30, height - 30]; an axis that was out
    of bounds is set to the bound it crossed and its velocity component is
    multiplied by -0.3; an axis in bounds keeps position and velocity. *)
Theorem applyBoundaries_clamps (s : State) (point velocity : Vec) :
  let W := width (canvas s) / dpi s in
  let H := height (canvas s) / dpi s in
  let point' := fst (applyBoundaries s point velocity) in
  let velocity' := snd (applyBoundaries s point velocity) in
  60 <= W -> 60 <= H ->
  (30 <= x point' <= W - 30 /\ 30 <= y point' <= H - 30) /\
  (x point < 30 -> x point' = 30 /\ x velocity' = x velocity * -0.3) /\
  (x point > W - 30 -> x point' = W - 30 /\ x velocity' = x velocity * -0.3) /\
  (30 <= x point <= W - 30 -> x point' = x point /\ x velocity' = x velocity) /\
  (y point < 30 -> y point' = 30 /\ y velocity' = y velocity * -0.3) /\
  (y point > H - 30 -> y point' = H - 30 /\ y velocity' = y velocity * -0.3) /\
  (30 <= y point <= H - 30 -> y point' = y point /\ y velocity' = y velocity).
Proof.
  intros W H point' velocity' HW HH.
  subst point' velocity'. unfold applyBoundaries. fold W H.
  generalize dependent H. generalize dependent W. intros W HW H HH.
  split_decides; repeat split; intros; simpl in *; lra.
Qed.

Lemma applyBoundaries_clamps_witness :
  let point' := fst (applyBoundaries resting_state {| x := 10; y := 700 |}
                                     {| x := -4; y := 9 |}) in
  let velocity' := snd (applyBoundaries resting_state {| x := 10; y := 700 |}
                                        {| x := -4; y := 9 |}) in
  x point' = 30 /\ x velocity' = -4 * -0.3.
Proof.
  intros point' velocity'.
  assert (dpi resting_state = 1) as Hd.
  { unfold dpi. simpl. destruct (decide (1 = 0)); lra. }
  apply (applyBoundaries_clamps resting_state {| x := 10; y := 700 |}
                                {| x := -4; y := 9 |});
    rewrite ?Hd; simpl; lra.
Defined.

(** C6: clamping twice gives the position that clamping once gives, for
    every point, velocity and surface size. *)
Theorem applyBoundaries_idempotent (s : State) (point velocity : Vec) :
  let once := applyBoundaries s point velocity in
  fst (applyBoundaries s (fst once) (snd once)) = fst once.
Proof.
  intros once. subst once. unfold applyBoundaries.
  generalize (width (canvas s) / dpi s) (height (canvas s) / dpi s).
  intros W H.
  split_decides; apply Vec_eq; simpl; lra.
Qed.

(** ** Advancing particles *)

Lemma insert_middle {A} (l1 l2 : list A) (a b : A) :
  <[length l1 := b]> (l1 ++ a :: l2) = l1 ++ b :: l2.
Proof.
  rewrite insert_app_r_alt by lia. rewrite Nat.sub_diag. reflexivity.
Qed.

(** The backward loop over the first [length l1] particles: each is
    advanced, the dead ones are spliced out, the rest of the array is not
    touched. *)
Lemma updateParticles_from_spec (l1 : list Particle) : forall l2,
  updateParticles_from (length l1) (l1 ++ l2)
  = Some (filter (fun p => 0 < life p) (advance <$> l1) ++ l2).
Proof.
  induction l1 as [|p l1 IH] using rev_ind; intros l2.
  - reflexivity.
  - rewrite length_app, Nat.add_comm. simpl length. simpl updateParticles_from.
    rewrite <- app_assoc. simpl app.
    rewrite list_lookup_middle by reflexivity. simpl.
    rewrite insert_middle, fmap_app, filter_app. simpl fmap.
    rewrite (filter_singleton _ _ []). simpl life.
    destruct (decide (life p - decay p <= 0)) as [Hdead|Halive].
    + rewrite delete_middle, IH.
      destruct (decide (0 < life p - decay p)); [lra|].
      rewrite app_nil_r. reflexivity.
    + rewrite IH.
      destruct (decide (0 < life p - decay p)); [|lra].
      rewrite <- app_assoc. reflexivity.
Qed.

Lemma updateParticles_ok (s : State) :
  exists s',
    updateParticles s = Some (tt, s') /\ same_core s s' /\
    random s' = random s /\
    plist (particles s')
    = filter (fun p => 0 < life p) (advance <$> plist (particles s)).
Proof.
  unfold updateParticles, bind, get, lift, modify.
  pose proof (updateParticles_from_spec (plist (particles s)) []) as H.
  rewrite !app_nil_r in H. rewrite H.
  eexists. split; [reflexivity|]. simpl.
  split; [unfold same_core; simpl; tauto|]. split; reflexivity.
Qed.

(** C8: one particle tick lowers the life of every particle by exactly its
    decay, hence strictly when the decay is positive; the collection
    afterwards is exactly the advanced particles whose life is still
    positive, in their order: none with life <= 0 stays, none with
    life > 0 is removed. *)
Theorem updateParticles_life (s : State) :
  Forall (fun p => 0 < decay p) (plist (particles s)) ->
  exists s',
    updateParticles s = Some (tt, s') /\
    plist (particles s')
    = filter (fun p => 0 < life p) (advance <$> plist (particles s)) /\
    (forall p, p ∈ plist (particles s) ->
               life (advance p) = life p - decay p /\
               life (advance p) < life p) /\
    (forall q, q ∈ plist (particles s') -> 0 < life q) /\
    (forall p, p ∈ plist (particles s) -> 0 < life (advance p) ->
               advance p ∈ plist (particles s')) /\
    (forall p, p ∈ plist (particles s) -> life (advance p) <= 0 ->
               advance p ∉ plist (particles s')) /\
    Forall (fun p => 0 < decay p) (plist (particles s')).
Proof.
  intros Hdecay.
  destruct (updateParticles_ok s) as (s' & Hrun & _ & _ & Hl).
  exists s'. split; [exact Hrun|]. split; [exact Hl|].
  rewrite Forall_forall in Hdecay.
  split.
  { intros p Hp. specialize (Hdecay p Hp). simpl. lra. }
  split.
  { intros q Hq. rewrite Hl in Hq. apply list_elem_of_filter in Hq. tauto. }
  split.
  { intros p Hp Hpos. rewrite Hl. apply list_elem_of_filter.
    split; [exact Hpos|]. apply list_elem_of_fmap_2, Hp. }
  split.
  { intros p Hp Hdead Hin. rewrite Hl in Hin.
    apply list_elem_of_filter in Hin. lra. }
  rewrite Hl. apply Forall_forall. intros q Hq.
  apply list_elem_of_filter in Hq as [_ Hq].
  apply list_elem_of_fmap in Hq as (p & -> & Hp). simpl. auto.
Qed.

Lemma updateParticles_life_witness :
  exists s',
    updateParticles sparks_state = Some (tt, s') /\
    plist (particles s')
    = filter (fun p => 0 < life p) (advance <$> sparks).
Proof.
  destruct (updateParticles_life sparks_state) as (s' & Hrun & Hl & _).
  - unfold sparks_state, sparks; simpl.
    repeat constructor; simpl; lra.
  - exists s'. split; [exact Hrun|exact Hl].
Defined.

(** ** The tangent is the derivative of the curve *)

Lemma cubic_derivative (c0 c1 c2 c3 t : R) :
  derivable_pt_lim (fun z => c0 + c1 * z + c2 * z ^ 2 + c3 * z ^ 3) t
                   (c1 + 2 * c2 * t + 3 * c3 * t ^ 2).
Proof.
  replace (c1 + 2 * c2 * t + 3 * c3 * t ^ 2)
    with (0 + c1 * 1 + c2 * (INR 2 * t ^ pred 2) + c3 * (INR 3 * t ^ pred 3))
    by (simpl; ring).
  apply (derivable_pt_lim_ext
           (fct_cte c0 + mult_real_fct c1 id
            + mult_real_fct c2 (fun z => z ^ 2)
            + mult_real_fct c3 (fun z => z ^ 3))%F).
  { intros z. unfold plus_fct, mult_real_fct, fct_cte, id. reflexivity. }
  repeat apply derivable_pt_lim_plus.
  - apply derivable_pt_lim_const.
  - apply derivable_pt_lim_scal, derivable_pt_lim_id.
  - apply derivable_pt_lim_scal, derivable_pt_lim_pow.
  - apply derivable_pt_lim_scal, derivable_pt_lim_pow.
Qed.

Lemma bezier_derivative (a0 a1 a2 a3 t : R) :
  derivable_pt_lim
    (fun z => (1 - z) * (1 - z) * (1 - z) * a0
              + 3 * ((1 - z) * (1 - z)) * z * a1
              + 3 * (1 - z) * (z * z) * a2 + z * z * z * a3)
    t (hodograph a0 a1 a2 a3 t).
Proof.
  replace (hodograph a0 a1 a2 a3 t)
    with (3 * (a1 - a0) + 2 * (3 * (a0 - 2 * a1 + a2)) * t
          + 3 * (a3 - 3 * a2 + 3 * a1 - a0) * t ^ 2)
    by (unfold hodograph; ring).
  eapply derivable_pt_lim_ext; [|apply (cubic_derivative a0)].
  intros z. simpl. ring.
Qed.

(** C7: with control points P0..P3 in place, [calculateBezierTangent(t)]
    returns, for every real [t], the vector
    3(1-t)^2 (P1-P0) + 6(1-t)t (P2-P1) + 3t^2 (P3-P2), which on each axis is
    the derivative at [t] of the polynomial [calculateBezierPoint]
    computes; where coinciding control points make that vector zero the
    result is the zero vector, not a failure. *)
Theorem calculateBezierTangent_derivative (s : State) (p0 p1 p2 p3 : Vec) (t : R) :
  controlPoint s 0 = Some p0 ->
  controlPoint s 1 = Some p1 ->
  controlPoint s 2 = Some p2 ->
  controlPoint s 3 = Some p3 ->
  exists d,
    calculateBezierTangent t s = Some d /\
    x d = hodograph (x p0) (x p1) (x p2) (x p3) t /\
    y d = hodograph (y p0) (y p1) (y p2) (y p3) t /\
    derivable_pt_lim (curve_x s) t (x d) /\
    derivable_pt_lim (curve_y s) t (y d) /\
    (p0 = p1 -> p1 = p2 -> p2 = p3 -> d = {| x := 0; y := 0 |}) /\
    (t = 0 -> p0 = p1 -> d = {| x := 0; y := 0 |}) /\
    (t = 1 -> p2 = p3 -> d = {| x := 0; y := 0 |}).
Proof.
  intros H0 H1 H2 H3.
  unfold calculateBezierTangent. rewrite H0, H1, H2, H3. simpl.
  eexists. split; [reflexivity|]. simpl.
  assert (forall a0 a1 a2 a3,
             3 * (1 - t) * (1 - t) * (a1 - a0) + 6 * (1 - t) * t * (a2 - a1)
             + 3 * t * t * (a3 - a2) = hodograph a0 a1 a2 a3 t) as Hh
      by (intros; unfold hodograph; ring).
  rewrite !Hh.
  split; [reflexivity|]. split; [reflexivity|].
  split.
  { eapply derivable_pt_lim_ext; [|apply bezier_derivative].
    intros z. unfold curve_x, calculateBezierPoint.
    rewrite H0, H1, H2, H3. reflexivity. }
  split.
  { eapply derivable_pt_lim_ext; [|apply bezier_derivative].
    intros z. unfold curve_y, calculateBezierPoint.
    rewrite H0, H1, H2, H3. reflexivity. }
  split; [|split].
  - intros -> -> ->. apply Vec_eq; unfold hodograph; simpl; ring.
  - intros -> ->. apply Vec_eq; unfold hodograph; simpl; ring.
  - intros -> ->. apply Vec_eq; unfold hodograph; simpl; ring.
Qed.

Lemma calculateBezierTangent_derivative_witness :
  exists d,
    calculateBezierTangent 0.5 resting_state = Some d /\
    x d = hodograph 120 280 520 680 0.5 /\
    y d = hodograph 360 120 120 360 0.5.
Proof.
  destruct (calculateBezierTangent_derivative resting_state
              {| x := 120; y := 360 |} {| x := 280; y := 120 |}
              {| x := 520; y := 120 |} {| x := 680; y := 360 |} 0.5)
    as (d & Hd & Hx & Hy & _); try reflexivity.
  exists d. split; [exact Hd|]. split; [exact Hx|exact Hy].
Defined.

Lemma calculateBezierPoint_endpoints_witness :
  calculateBezierPoint 0 resting_state = Some {| x := 120; y := 360 |} /\
  calculateBezierPoint 1 resting_state = Some {| x := 680; y := 360 |}.
Proof.
  apply (calculateBezierPoint_endpoints resting_state
           {| x := 120; y := 360 |} {| x := 280; y := 120 |}
           {| x := 520; y := 120 |} {| x := 680; y := 360 |}); reflexivity.
Defined.

(** ** One step of the integrator *)

Lemma tick_frame_refl s : tick_frame s s.
Proof. unfold tick_frame; tauto. Qed.

Lemma tick_frame_trans s1 s2 s3 :
  tick_frame s1 s2 -> tick_frame s2 s3 -> tick_frame s1 s3.
Proof. unfold tick_frame; intuition congruence. Qed.

Lemma same_core_tick_frame s s' : same_core s s' -> tick_frame s s'.
Proof. unfold same_core, tick_frame; intuition congruence. Qed.

Lemma dpi_frame s s' : devicePixelRatio s' = devicePixelRatio s -> dpi s' = dpi s.
Proof. unfold dpi. intros ->. reflexivity. Qed.

Lemma applyBoundaries_inside (s : State) (p v : Vec) :
  30 <= x p <= width (canvas s) / dpi s - 30 ->
  30 <= y p <= height (canvas s) / dpi s - 30 ->
  applyBoundaries s p v = (p, v).
Proof.
  unfold applyBoundaries.
  generalize (width (canvas s) / dpi s) (height (canvas s) / dpi s).
  intros W H HW HH. split_decides; try lra. reflexivity.
Qed.

(** The effect of the loop body at index [i]: one point object and one
    velocity object are rewritten, particles may be spawned. *)
Lemma updatePoint_spec (i : nat) (s : State) (l : loc) (v p rest : Vec) (m : Mouse) :
  controlPointRef s i = Some l ->
  velocityOf s i = Some v ->
  mouse s = Some m ->
  heap s !! l = Some p ->
  initialPoints s !! i = Some rest ->
  exists s' p' v',
    updatePoint i s = Some (tt, s') /\
    tick_frame s s' /\
    heap s' = <[l := p']> (heap s) /\
    velocities (physics s') = <[(i - 1)%nat := v']> (velocities (physics s)) /\
    (targetPoint m = Some l -> p' = p /\ v' = {| x := 0; y := 0 |}) /\
    (v = {| x := 0; y := 0 |} -> undisturbed s i p ->
     p' = p /\ v' = {| x := 0; y := 0 |}).
Proof.
  intros Hl Hv Hm Hp Hrest. unfold velocityOf in Hv.
  unfold updatePoint, bind, get, lift. rewrite Hl, Hv, Hm.
  destruct (decide (targetPoint m = Some l)) as [Hheld|Hfree].
  - eexists _, p, {| x := 0; y := 0 |}.
    split; [reflexivity|]. simpl.
    split; [unfold tick_frame; simpl; rewrite length_insert; tauto|].
    split; [symmetry; apply list_insert_id, Hp|].
    split; [reflexivity|]. tauto.
  - rewrite Hp, Hrest.
    match goal with
    | |- context [if decide (i = 1%nat) then ?a else ?b] =>
        remember (if decide (i = 1%nat) then a else b) as tgt eqn:Htgt
    end.
    destruct tgt as [targetX targetY]. cbv beta iota zeta.
    match goal with
    | |- context [applyBoundaries s ?a ?b] =>
        destruct (applyBoundaries s a b) as [p' v'] eqn:Hclamp
    end.
    cbv [store_point store_velocity modify].
    match goal with
    | |- context [(if ?c then ?f else ?g) ?st] =>
        assert (exists s', (if c then f else g) st = Some (tt, s')
                           /\ same_core st s') as (s' & Hrun & Hcore)
    end.
    { destruct (_ && _);
        [apply createParticles_ok
        |eexists; split; [reflexivity|apply same_core_refl]]. }
    exists s', p', v'. split; [exact Hrun|].
    destruct Hcore as (Hc1 & Hc2 & Hc3 & Hc4 & Hc5 & Hc6 & Hc7 & _).
    simpl in Hc1, Hc2, Hc3, Hc4, Hc5, Hc6, Hc7.
    split.
    { unfold tick_frame. rewrite Hc1, Hc2, Hc3, Hc4, Hc5, Hc6, Hc7. simpl.
      rewrite !length_insert. tauto. }
    split; [exact Hc1|].
    split; [rewrite Hc6; reflexivity|].
    split; [tauto|].
    intros -> (m' & Hm' & Hvx & Hvy & Hmx & Hmy & Hrest' & Hx & Hy).
    assert (m' = m) as -> by congruence.
    assert (rest = p) as -> by congruence.
    assert (targetX = x p /\ targetY = y p) as [-> ->].
    { destruct (decide (i = 1%nat)); injection Htgt as -> ->;
        rewrite Hmx, Hmy; split; ring. }
    rewrite Hvx, Hvy in Hclamp. simpl in Hclamp.
    rewrite applyBoundaries_inside in Hclamp by (simpl; lra).
    injection Hclamp as <- <-.
    split; apply Vec_eq; simpl; ring.
Qed.

Lemma controlPointRef_frame s s' i :
  controlPoints s' = controlPoints s -> controlPointRef s' i = controlPointRef s i.
Proof. unfold controlPointRef. intros ->. reflexivity. Qed.

Lemma wf_controlPoint (s : State) (i : nat) :
  wf s -> (i < 4)%nat ->
  exists l p, controlPointRef s i = Some l /\ heap s !! l = Some p /\
              controlPoint s i = Some p.
Proof.
  intros [(l0 & l1 & l2 & l3 & Hcps & _ & Hin) _ _ _] Hi.
  unfold controlPoint, controlPointRef. rewrite Hcps. simpl.
  destruct (lookup_lt_is_Some_2 [l0; l1; l2; l3] i Hi) as [l Hl].
  rewrite Hl. simpl.
  rewrite Forall_forall in Hin.
  destruct (lookup_lt_is_Some_2 (heap s) l) as [p Hp].
  { apply Hin. eapply list_elem_of_lookup_2, Hl. }
  exists l, p. auto.
Qed.

Lemma wf_distinct (s : State) (i j : nat) (l : loc) :
  wf s -> controlPointRef s i = Some l -> controlPointRef s j = Some l -> i = j.
Proof.
  intros [(l0 & l1 & l2 & l3 & Hcps & Hnd & _) _ _ _].
  unfold controlPointRef. rewrite Hcps. simpl. intros Hi Hj.
  eapply NoDup_lookup; eassumption.
Qed.

Lemma wf_frame (s s' : State) : tick_frame s s' -> wf s -> wf s'.
Proof.
  intros (_ & _ & Hi & Hc & Hm & _ & _ & _ & _ & Hh & Hv) [Hp Hr Hvl Hmo].
  split.
  - rewrite Hc, Hh. exact Hp.
  - rewrite Hi. exact Hr.
  - rewrite Hv. exact Hvl.
  - rewrite Hm. exact Hmo.
Qed.

Lemma held_frame s s' i : tick_frame s s' -> held s i -> held s' i.
Proof.
  intros (_ & _ & _ & Hc & Hm & _) (m & l & H1 & H2 & H3).
  exists m, l. rewrite Hm. rewrite (controlPointRef_frame _ _ _ Hc). auto.
Qed.

Lemma undisturbed_frame s s' i p :
  tick_frame s s' -> undisturbed s i p -> undisturbed s' i p.
Proof.
  intros (Hc & Hd & Hi & _ & Hm & _). unfold undisturbed.
  rewrite Hc, Hi, Hm, (dpi_frame _ _ Hd). auto.
Qed.

(** The loop body at [j], seen from each control point. *)
Lemma updatePoint_view (j : nat) (s : State) :
  wf s -> j = 1%nat \/ j = 2%nat ->
  exists s',
    updatePoint j s = Some (tt, s') /\ wf s' /\ tick_frame s s' /\
    (forall i, i <> j -> controlPoint s' i = controlPoint s i) /\
    (forall i, i = 1%nat \/ i = 2%nat -> i <> j ->
               velocityOf s' i = velocityOf s i) /\
    (forall p, controlPoint s j = Some p ->
               held s j \/
               (velocityOf s j = Some {| x := 0; y := 0 |} /\ undisturbed s j p) ->
               at_rest s' j p) /\
    (forall l, controlPointRef s j <> Some l -> heap s' !! l = heap s !! l).
Proof.
  intros Hwf Hj.
  destruct (wf_controlPoint s j Hwf ltac:(lia)) as (l & p & Hl & Hp & Hcp).
  destruct (lookup_lt_is_Some_2 (velocities (physics s)) (j - 1)) as [v Hv].
  { rewrite (wf_velocities _ Hwf). lia. }
  destruct (wf_mouse _ Hwf) as [m Hm].
  destruct (lookup_lt_is_Some_2 (initialPoints s) j) as [rest Hrest].
  { rewrite (wf_rest _ Hwf). lia. }
  destruct (updatePoint_spec j s l v p rest m Hl Hv Hm Hp Hrest)
    as (s' & p' & v' & Hrun & Hframe & Hheap & Hvel & Hheld & Hstill).
  exists s'. split; [exact Hrun|].
  split; [eapply wf_frame; eassumption|]. split; [exact Hframe|].
  pose proof Hframe as (_ & _ & _ & Hc & _).
  split; [|split; [|split]].
  4:{ intros l' Hl'. rewrite Hheap. apply list_lookup_insert_ne. congruence. }
  - intros i Hij. unfold controlPoint.
    rewrite (controlPointRef_frame _ _ i Hc).
    destruct (controlPointRef s i) as [li|] eqn:Hli; [simpl|reflexivity].
    rewrite Hheap. apply list_lookup_insert_ne.
    intros <-. apply Hij. eapply wf_distinct; eassumption.
  - intros i Hi Hij. unfold velocityOf. rewrite Hvel.
    apply list_lookup_insert_ne. lia.
  - intros q Hq Hcase. assert (q = p) as -> by congruence.
    assert (p' = p /\ v' = {| x := 0; y := 0 |}) as [-> ->].
    { destruct Hcase as [(m' & l' & Hm' & Hl' & Ht)|[Hv0 Hund]].
      - apply Hheld. congruence.
      - apply Hstill; [|exact Hund]. unfold velocityOf in Hv0. congruence. }
    split.
    + unfold controlPoint. rewrite (controlPointRef_frame _ _ j Hc), Hl. simpl.
      rewrite Hheap. apply list_lookup_insert_eq.
      eapply lookup_lt_Some, Hp.
    + unfold velocityOf. rewrite Hvel. apply list_lookup_insert_eq.
      eapply lookup_lt_Some, Hv.
Qed.

Lemma same_core_controlPoint s s' i :
  same_core s s' -> controlPoint s' i = controlPoint s i.
Proof.
  intros (Hh & _ & _ & _ & Hc & _). unfold controlPoint, controlPointRef.
  rewrite Hh, Hc. reflexivity.
Qed.

Lemma same_core_velocityOf s s' i :
  same_core s s' -> velocityOf s' i = velocityOf s i.
Proof.
  intros (_ & _ & _ & _ & _ & Hp & _). unfold velocityOf. rewrite Hp. reflexivity.
Qed.

(** ** One tick *)

(** A tick, seen from each control point: the endpoints are not touched,
    and a movable point that is held, or that has no reason to move, is at
    rest afterwards. *)
Lemma updatePhysics_view (s : State) :
  wf s ->
  exists s',
    updatePhysics s = Some (tt, s') /\ wf s' /\ tick_frame s s' /\
    controlPoint s' 0 = controlPoint s 0 /\
    controlPoint s' 3 = controlPoint s 3 /\
    (enabled (physics s) = false -> s' = s) /\
    (enabled (physics s) = true ->
     forall i p, i = 1%nat \/ i = 2%nat ->
       controlPoint s i = Some p ->
       held s i \/
       (velocityOf s i = Some {| x := 0; y := 0 |} /\ undisturbed s i p) ->
       at_rest s' i p) /\
    (forall l, controlPointRef s 1 <> Some l -> controlPointRef s 2 <> Some l ->
               heap s' !! l = heap s !! l).
Proof.
  intros Hwf. unfold updatePhysics, bind at 1, get.
  destruct (enabled (physics s)) eqn:Hen; cbv beta iota delta [negb].
  2:{ exists s. split; [reflexivity|]. split; [exact Hwf|].
      split; [apply tick_frame_refl|].
      split; [reflexivity|]. split; [reflexivity|]. split; [reflexivity|].
      split; [intros; discriminate|reflexivity]. }
  destruct (updatePoint_view 1 s Hwf ltac:(auto))
    as (s1 & Hrun1 & Hwf1 & Hf1 & Hpts1 & Hvel1 & Hrest1 & Hheap1).
  destruct (updatePoint_view 2 s1 Hwf1 ltac:(auto))
    as (s2 & Hrun2 & Hwf2 & Hf2 & Hpts2 & Hvel2 & Hrest2 & Hheap2).
  destruct (updateParticles_ok s2) as (s3 & Hrun3 & Hcore3 & _).
  assert (for_each [1; 2]%nat updatePoint s = Some (tt, s2)) as Hloop.
  { simpl. rewrite (bind_Some _ _ _ _ _ Hrun1), (bind_Some _ _ _ _ _ Hrun2).
    reflexivity. }
  exists s3. rewrite (bind_Some _ _ _ _ _ Hloop).
  split; [exact Hrun3|].
  pose proof (same_core_tick_frame _ _ Hcore3) as Hf3.
  split; [eauto using wf_frame|].
  split; [eauto using tick_frame_trans|].
  split.
  { rewrite (same_core_controlPoint _ _ _ Hcore3), Hpts2, Hpts1 by lia.
    reflexivity. }
  split.
  { rewrite (same_core_controlPoint _ _ _ Hcore3), Hpts2, Hpts1 by lia.
    reflexivity. }
  split; [discriminate|].
  split.
  2:{ intros l Hl1 Hl2. destruct Hcore3 as (-> & _).
      rewrite Hheap2, Hheap1; [reflexivity|exact Hl1|].
      pose proof Hf1 as (_ & _ & _ & Hc & _).
      rewrite (controlPointRef_frame _ _ _ Hc). exact Hl2. }
  intros _ i p Hi Hp Hcase.
  unfold at_rest.
  rewrite (same_core_controlPoint _ _ _ Hcore3), (same_core_velocityOf _ _ _ Hcore3).
  destruct Hi as [-> | ->].
  - destruct (Hrest1 p Hp Hcase) as [Hp1 Hv1].
    rewrite Hpts2, Hvel2 by (auto; lia). auto.
  - apply Hrest2.
    + rewrite Hpts1 by lia. exact Hp.
    + rewrite Hvel1 by (auto; lia).
      destruct Hcase as [Hheld|[Hv0 Hund]];
        [left; eapply held_frame|right; split; [|eapply undisturbed_frame]];
        eassumption.
Qed.

Lemma wf_reactor_800 a b p1 v1 down target : wf (reactor_800 a b p1 v1 down target).
Proof.
  split; simpl; eauto.
  exists 0%nat, 1%nat, 2%nat, 3%nat. split; [reflexivity|]. split.
  - apply (bool_decide_unpack _). reflexivity.
  - repeat constructor; simpl; lia.
Qed.

(** ** A held point *)

(** C2, as stated, fails while the physics is paused: P1 is held, the tick
    returns at once and the velocity (5, -3) stays. *)
Lemma updatePhysics_paused_keeps_velocity :
  held (dragging_state false) 1 /\
  updatePhysics (dragging_state false) = Some (tt, dragging_state false) /\
  velocityOf (dragging_state false) 1 = Some {| x := 5; y := -3 |} /\
  velocityOf (dragging_state false) 1 <> Some {| x := 0; y := 0 |}.
Proof.
  split; [eexists _, _; repeat split; reflexivity|].
  split; [reflexivity|]. split; [reflexivity|].
  simpl. intros H. injection H as H _. lra.
Qed.

(** C2 (amended): in every tick run with the physics enabled, a movable
    point that is the pointer's target gets velocity exactly (0, 0),
    whatever its velocity was, and is not moved by the integrator; with the
    physics paused the tick changes nothing. *)
Theorem updatePhysics_zeroes_held (s : State) (i : nat) :
  wf s -> i = 1%nat \/ i = 2%nat -> held s i ->
  (enabled (physics s) = true ->
   exists s',
     updatePhysics s = Some (tt, s') /\
     velocityOf s' i = Some {| x := 0; y := 0 |} /\
     controlPoint s' i = controlPoint s i) /\
  (enabled (physics s) = false -> updatePhysics s = Some (tt, s)).
Proof.
  intros Hwf Hi Hheld.
  destruct (updatePhysics_view s Hwf)
    as (s' & Hrun & _ & _ & _ & _ & Hoff & Hon & _).
  split.
  - intros Hen. exists s'. split; [exact Hrun|].
    destruct (wf_controlPoint s i Hwf) as (l & p & _ & _ & Hp);
      [destruct Hi; lia|].
    destruct (Hon Hen i p Hi Hp (or_introl Hheld)) as [Hp' Hv'].
    split; congruence.
  - intros Hen. rewrite (Hoff Hen) in Hrun. exact Hrun.
Qed.

Lemma updatePhysics_zeroes_held_witness :
  exists s',
    updatePhysics (dragging_state true) = Some (tt, s') /\
    velocityOf s' 1 = Some {| x := 0; y := 0 |} /\
    controlPoint s' 1 = controlPoint (dragging_state true) 1.
Proof.
  apply (updatePhysics_zeroes_held (dragging_state true) 1).
  - apply wf_reactor_800.
  - left. reflexivity.
  - eexists _, _. repeat split; reflexivity.
  - reflexivity.
Defined.

(** ** A point at its rest pose *)

Lemma ticks_stationary_any_parameters (s : State) (i : nat) (p : Vec) :
  wf s -> i = 1%nat \/ i = 2%nat ->
  undisturbed s i p -> at_rest s i p ->
  forall n, exists s', ticks n s = Some (tt, s') /\ at_rest s' i p.
Proof.
  intros Hwf Hi Hund Hrest n. revert s Hwf Hund Hrest.
  induction n as [|n IH]; intros s Hwf Hund Hrest.
  - exists s. split; [reflexivity|exact Hrest].
  - destruct (updatePhysics_view s Hwf)
      as (s1 & Hrun & Hwf1 & Hframe & _ & _ & Hoff & Hon & _).
    assert (at_rest s1 i p) as Hrest1.
    { destruct (enabled (physics s)) eqn:Hen.
      - destruct Hrest as [Hp Hv]. apply Hon; auto.
      - rewrite (Hoff eq_refl). exact Hrest. }
    destruct (IH s1 Hwf1 (undisturbed_frame _ _ _ _ Hframe Hund) Hrest1)
      as (s' & Hticks & Hrest').
    exists s'. simpl ticks. rewrite (bind_Some _ _ _ _ _ Hrun).
    split; assumption.
Qed.

(** C5: with stiffness 0.05, damping 0.90 and influence 0.5, a movable
    point that sits at its rest-pose position with zero velocity, the rest
    pose inside the 30-unit margins, the pointer at the centre of the
    surface with zero derived velocity, is at exactly that position with
    zero velocity after any number of ticks. *)
Theorem ticks_stationary (s : State) (i : nat) (p : Vec) :
  wf s -> i = 1%nat \/ i = 2%nat ->
  stiffness (physics s) = 0.05 ->
  damping (physics s) = 0.90 ->
  mouseInfluence (physics s) = 0.5 ->
  undisturbed s i p ->
  at_rest s i p ->
  forall n, exists s', ticks n s = Some (tt, s') /\ at_rest s' i p.
Proof.
  intros Hwf Hi _ _ _. apply ticks_stationary_any_parameters; assumption.
Qed.

Lemma dpi_reactor_800 a b p1 v1 down target :
  dpi (reactor_800 a b p1 v1 down target) = 1.
Proof. unfold dpi. simpl. destruct (decide (1 = 0)); lra. Qed.

Lemma ticks_stationary_witness :
  exists s', ticks 100 resting_state = Some (tt, s') /\
             at_rest s' 1 {| x := 280; y := 120 |}.
Proof.
  apply (ticks_stationary resting_state 1 {| x := 280; y := 120 |}).
  - apply wf_reactor_800.
  - left. reflexivity.
  - reflexivity.
  - reflexivity.
  - reflexivity.
  - unfold undisturbed, resting_state. rewrite dpi_reactor_800.
    eexists. split; [reflexivity|]. simpl. repeat split; lra.
  - split; reflexivity.
Defined.


(** ** The endpoints *)

Lemma nearestAmong_spec (idxs : list nat) (x0 y0 threshold : R) (s : State) :
  wf s -> Forall (fun i => (i < 4)%nat) idxs ->
  exists r, nearestAmong idxs x0 y0 threshold s = Some r /\
            (r = None \/ exists i, i ∈ idxs /\ r = controlPointRef s i).
Proof.
  intros Hwf. induction idxs as [|i idxs IH]; intros Hidx.
  - exists None. split; [reflexivity|left; reflexivity].
  - apply Forall_cons in Hidx as [Hi Hidx].
    destruct (wf_controlPoint s i Hwf Hi) as (l & p & Hl & Hp & _).
    simpl. rewrite Hl. simpl. rewrite Hp. simpl.
    destruct (decide _).
    + exists (Some l). split; [reflexivity|]. right. exists i.
      split; [left|congruence].
    + destruct (IH Hidx) as (r & Hr & Hcase). exists r. split; [exact Hr|].
      destruct Hcase as [->|(j & Hj & ->)]; [left; reflexivity|].
      right. exists j. split; [right; exact Hj|reflexivity].
Qed.

(** Point selection returns [null], P1 or P2, and neither P0 nor P3. *)
Lemma getNearestControlPoint_movable (x0 y0 threshold : R) (s : State) :
  wf s ->
  exists r, getNearestControlPoint x0 y0 threshold s = Some (r, s) /\
            (r = None \/ r = controlPointRef s 1 \/ r = controlPointRef s 2) /\
            r <> controlPointRef s 0 /\ r <> controlPointRef s 3.
Proof.
  intros Hwf.
  destruct (nearestAmong_spec [1; 2]%nat x0 y0 threshold s Hwf) as (r & Hr & Hcase).
  { repeat constructor; lia. }
  exists r. unfold getNearestControlPoint, bind, get, lift. rewrite Hr.
  split; [reflexivity|].
  destruct (wf_controlPoint s 0 Hwf ltac:(lia)) as (l0 & ? & Hl0 & _).
  destruct (wf_controlPoint s 3 Hwf ltac:(lia)) as (l3 & ? & Hl3 & _).
  destruct Hcase as [->|(i & Hi & ->)].
  - rewrite Hl0, Hl3. split; [auto|]. split; discriminate.
  - assert (i = 1%nat \/ i = 2%nat) as Hi'.
    { apply elem_of_cons in Hi as [->|Hi]; [auto|].
      apply elem_of_cons in Hi as [->|Hi]; [auto|]. inversion Hi. }
    split; [destruct Hi' as [-> | ->]; auto|].
    destruct (wf_controlPoint s i Hwf) as (l & ? & Hl & _);
      [destruct Hi'; lia|].
    split; intros Heq; symmetry in Heq.
    + pose proof (wf_distinct s i 0 l Hwf Hl (eq_trans Heq Hl)). lia.
    + pose proof (wf_distinct s i 3 l Hwf Hl (eq_trans Heq Hl)). lia.
Qed.

Lemma wf_set_mouse (m : Mouse) (s : State) : wf s -> wf (set_mouse (Some m) s).
Proof. intros [Hp Hr Hv _]. split; simpl; eauto. Qed.

(** Pressing the button makes P1, P2 or nothing the pointer's target. *)
Lemma handleMouseDown_target (e : MouseEvent) (rect : DOMRect) (s : State) :
  wf s ->
  exists s' m',
    handleMouseDown e rect s = Some (tt, s') /\
    mouse s' = Some m' /\ isDown m' = true /\
    controlPoints s' = controlPoints s /\
    (targetPoint m' = None \/ targetPoint m' = controlPointRef s 1
     \/ targetPoint m' = controlPointRef s 2) /\
    targetPoint m' <> controlPointRef s 0 /\
    targetPoint m' <> controlPointRef s 3.
Proof.
  intros Hwf. destruct (wf_mouse _ Hwf) as [m Hm].
  cbv [handleMouseDown bind get lift modify]. rewrite Hm.
  match goal with
  | |- context [getNearestControlPoint ?a ?b ?c ?st] =>
      destruct (getNearestControlPoint_movable a b c st (wf_set_mouse _ s Hwf))
        as (r & Hnear & Hcase & Hr0 & Hr3);
      rewrite Hnear
  end.
  match goal with
  | |- context [(if ?c then ?f else ?g) ?st] =>
      assert (exists s', (if c then f else g) st = Some (tt, s')
                         /\ same_core st s') as (s' & Hrun & Hcore)
  end.
  { destruct (particles_enabled _);
      [apply createParticles_ok
      |eexists; split; [reflexivity|apply same_core_refl]]. }
  destruct Hcore as (_ & _ & _ & _ & Hc & _ & Hmo & _). simpl in Hc, Hmo.
  eexists s', _. split; [exact Hrun|]. split; [exact Hmo|]. simpl.
  split; [reflexivity|]. split; [exact Hc|].
  split; [exact Hcase|]. split; assumption.
Qed.

(** C10: a tick leaves the endpoint objects P0 and P3, their references and
    their coordinates, as they were, along with every point object other
    than P1 and P2, the canvas, the rest pose, the pointer state and the
    physics parameters; and point selection yields P1, P2 or nothing, never
    an endpoint. *)
Theorem updatePhysics_keeps_endpoints (s : State) :
  wf s ->
  (exists s',
      updatePhysics s = Some (tt, s') /\ tick_frame s s' /\
      controlPointRef s' 0 = controlPointRef s 0 /\
      controlPointRef s' 3 = controlPointRef s 3 /\
      controlPoint s' 0 = controlPoint s 0 /\
      controlPoint s' 3 = controlPoint s 3 /\
      (forall l, controlPointRef s 1 <> Some l -> controlPointRef s 2 <> Some l ->
                 heap s' !! l = heap s !! l)) /\
  (forall x0 y0 threshold,
      exists r, getNearestControlPoint x0 y0 threshold s = Some (r, s) /\
                (r = None \/ r = controlPointRef s 1 \/ r = controlPointRef s 2) /\
                r <> controlPointRef s 0 /\ r <> controlPointRef s 3) /\
  (forall e rect,
      exists s' m',
        handleMouseDown e rect s = Some (tt, s') /\
        mouse s' = Some m' /\
        targetPoint m' <> controlPointRef s' 0 /\
        targetPoint m' <> controlPointRef s' 3).
Proof.
  intros Hwf. split; [|split].
  - destruct (updatePhysics_view s Hwf)
      as (s' & Hrun & _ & Hframe & H0 & H3 & _ & _ & Hheap).
    exists s'. pose proof Hframe as (_ & _ & _ & Hc & _).
    rewrite !(controlPointRef_frame _ _ _ Hc). auto 10.
  - intros. apply getNearestControlPoint_movable, Hwf.
  - intros e rect.
    destruct (handleMouseDown_target e rect s Hwf)
      as (s' & m' & Hrun & Hm' & _ & Hc & _ & H0 & H3).
    exists s', m'. rewrite !(controlPointRef_frame _ _ _ Hc). auto.
Qed.

Lemma updatePhysics_keeps_endpoints_witness :
  exists s',
    updatePhysics (dragging_state true) = Some (tt, s') /\
    controlPoint s' 0 = Some {| x := 120; y := 360 |} /\
    controlPoint s' 3 = Some {| x := 680; y := 360 |}.
Proof.
  destruct (updatePhysics_keeps_endpoints (dragging_state true))
    as [(s' & Hrun & _ & _ & _ & H0 & H3 & _) _].
  - apply wf_reactor_800.
  - exists s'. split; [exact Hrun|]. split; [exact H0|exact H3].
Defined.

(** ** Resizing *)

Lemma JSON_copy_spec (ps : list Vec) : forall s,
  JSON_copy ps s
  = Some (seq (length (heap s)) (length ps), set_heap (heap s ++ ps) s).
Proof.
  induction ps as [|p ps IH]; intros s.
  - simpl. unfold ret, set_heap. rewrite app_nil_r. destruct s; reflexivity.
  - simpl JSON_copy. unfold bind at 1. unfold alloc.
    unfold bind. rewrite IH. unfold ret. simpl.
    rewrite length_app, Nat.add_1_r, <- app_assoc. reflexivity.
Qed.

Lemma calculateInitialPoints_spec (s : State) :
  let pose := rest_pose (width (canvas s) / dpi s) (height (canvas s) / dpi s) in
  calculateInitialPoints s
  = Some (tt, match controlPoints s with
              | Some _ => set_initialPoints pose s
              | None => set_controlPoints (Some (seq (length (heap s)) 4))
                          (set_heap (heap s ++ pose) (set_initialPoints pose s))
              end).
Proof.
  intros pose. cbv [calculateInitialPoints bind get modify].
  cbn [controlPoints set_initialPoints initialPoints].
  destruct (controlPoints s) eqn:Hc; [reflexivity|].
  fold pose. rewrite JSON_copy_spec. reflexivity.
Qed.

Lemma fresh_points_lookup (h ps : list Vec) (i : nat) :
  (i < length ps)%nat ->
  (l ← seq (length h) (length ps) !! i; (h ++ ps) !! l) = ps !! i.
Proof.
  intros Hi. rewrite lookup_seq_lt by exact Hi. simpl.
  rewrite lookup_app_r by lia. f_equal. lia.
Qed.

(** The canvas attributes *)

Lemma Int_part_IZR (z : Z) : Int_part (IZR z) = z.
Proof. symmetry. apply Int_part_spec. lra. Qed.

Lemma canvas_dimension_floor (default : Z) (a : R) :
  0 <= a < 2147483648 -> canvas_dimension default a = IZR (Int_part a).
Proof.
  intros [H0 H1]. unfold canvas_dimension, ToUint32, IntegerPart.
  destruct (decide (0 <= a)) as [_|]; [|contradiction].
  destruct (base_Int_part a) as [Hle Hgt].
  assert (-1 < Int_part a < 2147483648)%Z as Hz.
  { split; apply lt_IZR; lra. }
  change (2 ^ 32)%Z with 4294967296%Z.
  rewrite Z.mod_small by lia.
  destruct (decide _) as [_|Hbig]; [reflexivity|lia].
Qed.

Lemma canvas_dimension_IZR (default z : Z) :
  (0 <= z <= 2147483647)%Z -> canvas_dimension default (IZR z) = IZR z.
Proof.
  intros Hz. rewrite canvas_dimension_floor, Int_part_IZR; [reflexivity|].
  split; [apply IZR_le|apply IZR_lt]; lia.
Qed.

Lemma backing_store_floor (clientWidth : Z) (s : State) :
  (0 <= clientWidth <= 2147483647)%Z ->
  0 <= IZR clientWidth * dpi s < 2147483648 ->
  0 <= 600 * dpi s < 2147483648 ->
  backing_store clientWidth s
  = {| width := IZR (Int_part (IZR clientWidth * dpi s));
       height := IZR (Int_part (600 * dpi s)) |}.
Proof.
  intros Hw Hwd Hhd. unfold backing_store.
  rewrite (canvas_dimension_IZR 300 clientWidth Hw).
  rewrite (canvas_dimension_IZR 150 600) by lia.
  rewrite !canvas_dimension_floor by assumption. reflexivity.
Qed.

Lemma backing_store_unit (clientWidth : Z) (s : State) :
  (0 <= clientWidth <= 2147483647)%Z -> dpi s = 1 ->
  backing_store clientWidth s = {| width := IZR clientWidth; height := 600 |}.
Proof.
  intros Hw Hd. unfold backing_store. rewrite Hd, !Rmult_1_r.
  rewrite !(canvas_dimension_IZR 300 clientWidth Hw).
  rewrite !(canvas_dimension_IZR 150 600) by lia. reflexivity.
Qed.

Lemma resizeCanvas_run (clientWidth : Z) (s : State) :
  resizeCanvas clientWidth s = Some (tt, resized clientWidth s).
Proof.
  unfold resized, pointer_down, backing_store.
  cbv [resizeCanvas bind get modify].
  cbn [mouse set_canvas canvas width height].
  change (dpi (set_canvas _ s)) with (dpi s).
  destruct (from_option isDown false (mouse s)); cbn [negb]; [reflexivity|].
  rewrite calculateInitialPoints_spec. reflexivity.
Qed.




(** What a resize with the pointer up does to a curve that exists: the rest
    pose moves with the surface, the control points do not (they are copied
    from the rest pose only when there are none yet), although the source
    announces the call as recalculating the control points. *)
Lemma resizeCanvas_stale_control_points (clientWidth : Z) (s : State) :
  pointer_down s = false -> is_Some (controlPoints s) ->
  exists s',
    resizeCanvas clientWidth s = Some (tt, s') /\
    controlPoints s' = controlPoints s /\ heap s' = heap s /\
    forall i, controlPoint s' i = controlPoint s i.
Proof.
  intros Hdown [cps Hc]. exists (resized clientWidth s).
  split; [apply resizeCanvas_run|].
  unfold resized. rewrite Hdown, Hc.
  split; [exact Hc|]. split; [reflexivity|].
  intros i. unfold controlPoint, controlPointRef. simpl. rewrite Hc. reflexivity.
Qed.



(** ** The invariant is the constructor's and every handler's *)

Lemma wf_fresh_points (s : State) (ps : list Vec) :
  length ps = 4%nat ->
  length (initialPoints s) = 4%nat ->
  length (velocities (physics s)) = 2%nat ->
  is_Some (mouse s) ->
  wf (set_controlPoints (Some (seq (length (heap s)) 4))
                        (set_heap (heap s ++ ps) s)).
Proof.
  intros Hps Hr Hv Hm. split; simpl; auto.
  exists (length (heap s)), (S (length (heap s))),
         (S (S (length (heap s)))), (S (S (S (length (heap s))))).
  split; [reflexivity|]. split.
  - apply (NoDup_seq (length (heap s)) 4).
  - rewrite length_app, Hps. repeat constructor; lia.
Qed.

Lemma initControlPoints_run (s : State) :
  exists s1,
    calculateInitialPoints s = Some (tt, s1) /\
    initControlPoints s
    = Some (tt, set_controlPoints
                  (Some (seq (length (heap s1)) (length (initialPoints s1))))
                  (set_heap (heap s1 ++ initialPoints s1) s1)).
Proof.
  eexists. split; [apply calculateInitialPoints_spec|].
  unfold initControlPoints.
  rewrite (bind_Some _ _ _ _ _ (calculateInitialPoints_spec s)).
  cbv [bind get modify]. rewrite JSON_copy_spec. reflexivity.
Qed.

Lemma constructor_run (clientWidth : Z) (dpr : R) (rnd : nat -> R) :
  constructor clientWidth (blank dpr rnd)
  = animate (initialised clientWidth dpr rnd).
Proof.
  unfold constructor.
  rewrite (bind_Some _ _ _ _ _ (resizeCanvas_run _ _)).
  destruct (initControlPoints_run (resized clientWidth (blank dpr rnd)))
    as (s1 & Hs1 & Hrun).
  rewrite calculateInitialPoints_spec in Hs1. injection Hs1 as <-.
  rewrite (bind_Some _ _ _ _ _ Hrun).
  cbv [bind get modify initPhysics initParticles].
  apply f_equal. reflexivity.
Qed.

Lemma wf_initialised_on (c : Canvas) (dpr : R) (rnd : nat -> R) :
  wf (initialised_on c dpr rnd).
Proof.
  split; simpl; eauto.
  exists 4%nat, 5%nat, 6%nat, 7%nat. split; [reflexivity|]. split.
  - apply (bool_decide_unpack _). reflexivity.
  - repeat constructor; simpl; lia.
Qed.

Lemma wf_initialised (clientWidth : Z) (dpr : R) (rnd : nat -> R) :
  wf (initialised clientWidth dpr rnd).
Proof. apply wf_initialised_on. Qed.

(** The constructor, its first frame included, leaves a well-formed state:
    the rest pose is that of the canvas, the end points are at their rest
    pose and the pointer is up with no target. *)
Lemma constructor_wf (clientWidth : Z) (dpr : R) (rnd : nat -> R) :
  exists s,
    constructor clientWidth (blank dpr rnd) = Some (tt, s) /\ wf s /\
    initialPoints s
    = rest_pose (width (canvas s) / dpi s) (height (canvas s) / dpi s) /\
    controlPoint s 0 = initialPoints s !! 0%nat /\
    controlPoint s 3 = initialPoints s !! 3%nat /\
    (exists m, mouse s = Some m /\ isDown m = false /\ targetPoint m = None).
Proof.
  rewrite constructor_run.
  destruct (updatePhysics_view _ (wf_initialised clientWidth dpr rnd))
    as (s & Hrun & Hwf & Hf & Hp0 & Hp3 & _).
  exists s. split; [exact Hrun|]. split; [exact Hwf|].
  pose proof Hf as (Hc & Hd & Hi & _ & Hm & _).
  rewrite Hc, (dpi_frame _ _ Hd), Hi, Hp0, Hp3, Hm.
  split; [reflexivity|]. split; [reflexivity|]. split; [reflexivity|].
  eexists. repeat split; reflexivity.
Qed.

Lemma handleMouseUp_wf (s : State) :
  wf s -> exists s', handleMouseUp s = Some (tt, s') /\ wf s' /\ ~ held s' 1 /\ ~ held s' 2.
Proof.
  intros Hwf. destruct (wf_mouse _ Hwf) as [m Hm].
  cbv [handleMouseUp bind get lift modify]. rewrite Hm.
  eexists. split; [reflexivity|]. split; [apply wf_set_mouse, Hwf|].
  split; intros (m' & l & Hm' & _ & Ht); simpl in Hm';
    injection Hm' as <-; discriminate.
Qed.

Lemma reset_wf (s : State) :
  wf s ->
  exists s',
    reset s = Some (tt, s') /\ wf s' /\
    (forall i, (i < 4)%nat -> controlPoint s' i = initialPoints s' !! i) /\
    velocityOf s' 1 = Some {| x := 0; y := 0 |} /\
    velocityOf s' 2 = Some {| x := 0; y := 0 |}.
Proof.
  intros Hwf. cbv [reset bind get modify]. rewrite JSON_copy_spec.
  cbn [particles set_particles set_physics set_controlPoints set_heap
       particles_enabled set_plist canvas].
  match goal with
  | |- context [(if ?c then ?f else ?g) ?st] =>
      assert (exists s', (if c then f else g) st = Some (tt, s')
                         /\ same_core st s') as (s' & Hrun & Hcore)
  end.
  { destruct (particles_enabled _);
      [apply createParticles_ok
      |eexists; split; [reflexivity|apply same_core_refl]]. }
  exists s'. split; [exact Hrun|].
  pose proof (wf_rest _ Hwf) as Hr.
  split.
  { eapply wf_frame; [apply same_core_tick_frame, Hcore|].
    rewrite Hr.
    pose proof (wf_fresh_points s (initialPoints s) Hr Hr
                  (wf_velocities _ Hwf) (wf_mouse _ Hwf))
      as [Hp _ _ Hm].
    split; simpl; auto. }
  split.
  { intros i Hi. rewrite (same_core_controlPoint _ _ _ Hcore).
    destruct Hcore as (_ & _ & _ & -> & _).
    unfold controlPoint, controlPointRef. simpl.
    apply fresh_points_lookup. lia. }
  rewrite !(same_core_velocityOf _ _ _ Hcore). split; reflexivity.
Qed.

Lemma wf_transport (s s' : State) :
  controlPoints s' = controlPoints s ->
  length (heap s') = length (heap s) ->
  length (initialPoints s') = length (initialPoints s) ->
  length (velocities (physics s')) = length (velocities (physics s)) ->
  is_Some (mouse s') ->
  wf s -> wf s'.
Proof.
  intros Hc Hh Hi Hv Hm [Hp Hr Hvl _]. split.
  - rewrite Hc, Hh. exact Hp.
  - rewrite Hi. exact Hr.
  - rewrite Hv. exact Hvl.
  - exact Hm.
Qed.

(** Dragging: the move handler writes the pointer position into the held
    object, which is the very object [this.controlPoints[i]] names. *)
Lemma handleMouseMove_drags (e : MouseEvent) (rect : DOMRect) (s : State) (i : nat) :
  wf s -> held s i -> pointer_down s = true ->
  exists s',
    handleMouseMove e rect s = Some (tt, s') /\ wf s' /\ held s' i /\
    controlPoint s' i
    = Some {| x := (clientX e - left rect) * dpi s / dpi s;
              y := (clientY e - top rect) * dpi s / dpi s |}.
Proof.
  intros Hwf (m & l & Hm & Hl & Ht) Hdown.
  unfold pointer_down in Hdown. rewrite Hm in Hdown. simpl in Hdown.
  cbv [handleMouseMove bind get lift modify store_point]. rewrite Hm, Hdown, Ht.
  match goal with
  | |- context [(if ?c then ?f else ?g) ?st] =>
      assert (exists s', (if c then f else g) st = Some (tt, s')
                         /\ same_core st s') as (s' & Hrun & Hcore)
  end.
  { destruct (_ || _);
      [apply createParticles_ok
      |eexists; split; [reflexivity|apply same_core_refl]]. }
  exists s'. split; [exact Hrun|].
  pose proof Hcore as (Hc1 & _ & _ & Hc4 & Hc5 & Hc6 & Hc7 & _).
  simpl in Hc1, Hc4, Hc5, Hc6, Hc7.
  split.
  { apply (wf_transport s); rewrite ?Hc1, ?Hc4, ?Hc5, ?Hc6, ?Hc7;
      rewrite ?length_insert; eauto. }
  split.
  { eexists _, l. rewrite Hc7. split; [reflexivity|].
    rewrite (controlPointRef_frame _ _ _ Hc5). auto. }
  unfold controlPoint. rewrite (controlPointRef_frame _ _ _ Hc5), Hl. simpl.
  rewrite Hc1. apply list_lookup_insert_eq.
  destruct (wf_controlPoint s i Hwf) as (l' & p & Hl' & Hp & _).
  - destruct Hwf as [(l0 & l1 & l2 & l3 & Hcps & _) _ _ _].
    unfold controlPointRef in Hl. rewrite Hcps in Hl. simpl in Hl.
    apply lookup_lt_Some in Hl. exact Hl.
  - assert (l' = l) as -> by congruence. eapply lookup_lt_Some, Hp.
Qed.

(** * Further properties of the code *)

(** ** The curve *)

Lemma controlPoint_fmap_heap (f : Vec -> Vec) (s : State) (i : nat) :
  controlPoint (set_heap (f <$> heap s) s) i = f <$> controlPoint s i.
Proof.
  unfold controlPoint, controlPointRef. simpl.
  destruct (controlPoints s) as [cps|]; [simpl|reflexivity].
  destruct (cps !! i) as [l|]; [simpl|reflexivity].
  apply list_lookup_fmap.
Qed.

(** X1: moving all four control points by a vector [V] moves every point of
    the curve by [V] and leaves every tangent as it was. *)
Theorem calculateBezierPoint_translation (s s' : State) (V : Vec) (t : R) :
  (forall i, (i < 4)%nat -> controlPoint s' i = translate V <$> controlPoint s i) ->
  calculateBezierPoint t s' = translate V <$> calculateBezierPoint t s /\
  calculateBezierTangent t s' = calculateBezierTangent t s.
Proof.
  intros H. unfold calculateBezierPoint, calculateBezierTangent.
  rewrite (H 0%nat), (H 1%nat), (H 2%nat), (H 3%nat) by lia.
  destruct (controlPoint s 0) as [p0|]; [simpl|auto].
  destruct (controlPoint s 1) as [p1|]; [simpl|auto].
  destruct (controlPoint s 2) as [p2|]; [simpl|auto].
  destruct (controlPoint s 3) as [p3|]; [simpl|auto].
  split; f_equal; apply Vec_eq; simpl; ring.
Qed.

Lemma calculateBezierPoint_translation_witness :
  calculateBezierPoint 0.5 shifted_state
  = translate {| x := 10; y := -20 |} <$> calculateBezierPoint 0.5 resting_state.
Proof.
  apply (calculateBezierPoint_translation resting_state shifted_state).
  intros i _. apply controlPoint_fmap_heap.
Defined.

Lemma bernstein_bounds (t a0 a1 a2 a3 lo hi : R) :
  0 <= t <= 1 ->
  lo <= a0 <= hi -> lo <= a1 <= hi -> lo <= a2 <= hi -> lo <= a3 <= hi ->
  lo <= (1 - t) * (1 - t) * (1 - t) * a0 + 3 * ((1 - t) * (1 - t)) * t * a1
        + 3 * (1 - t) * (t * t) * a2 + t * t * t * a3 <= hi.
Proof.
  intros Ht H0 H1 H2 H3.
  assert (0 <= 1 - t) as Hu by lra.
  assert (0 <= (1 - t) * (1 - t) * (1 - t)) as Hb0
      by (repeat apply Rmult_le_pos; lra).
  assert (0 <= 3 * ((1 - t) * (1 - t)) * t) as Hb1
      by (repeat apply Rmult_le_pos; lra).
  assert (0 <= 3 * (1 - t) * (t * t)) as Hb2
      by (repeat apply Rmult_le_pos; lra).
  assert (0 <= t * t * t) as Hb3 by (repeat apply Rmult_le_pos; lra).
  assert ((1 - t) * (1 - t) * (1 - t) + 3 * ((1 - t) * (1 - t)) * t
          + 3 * (1 - t) * (t * t) + t * t * t = 1) as Hsum by ring.
  assert (0 <= (1 - t) * (1 - t) * (1 - t) * (a0 - lo)) by (apply Rmult_le_pos; lra).
  assert (0 <= 3 * ((1 - t) * (1 - t)) * t * (a1 - lo)) by (apply Rmult_le_pos; lra).
  assert (0 <= 3 * (1 - t) * (t * t) * (a2 - lo)) by (apply Rmult_le_pos; lra).
  assert (0 <= t * t * t * (a3 - lo)) by (apply Rmult_le_pos; lra).
  assert (0 <= (1 - t) * (1 - t) * (1 - t) * (hi - a0)) by (apply Rmult_le_pos; lra).
  assert (0 <= 3 * ((1 - t) * (1 - t)) * t * (hi - a1)) by (apply Rmult_le_pos; lra).
  assert (0 <= 3 * (1 - t) * (t * t) * (hi - a2)) by (apply Rmult_le_pos; lra).
  assert (0 <= t * t * t * (hi - a3)) by (apply Rmult_le_pos; lra).
  nra.
Qed.

(** X2: for a parameter in [0, 1] the curve point lies in every
    axis-parallel box that holds the four control points; in particular the
    drawn curve stays where the control points are. *)
Theorem calculateBezierPoint_in_hull (s : State) (t xlo xhi ylo yhi : R)
    (p0 p1 p2 p3 : Vec) :
  0 <= t <= 1 ->
  controlPoint s 0 = Some p0 -> controlPoint s 1 = Some p1 ->
  controlPoint s 2 = Some p2 -> controlPoint s 3 = Some p3 ->
  in_box xlo xhi ylo yhi p0 -> in_box xlo xhi ylo yhi p1 ->
  in_box xlo xhi ylo yhi p2 -> in_box xlo xhi ylo yhi p3 ->
  exists q, calculateBezierPoint t s = Some q /\ in_box xlo xhi ylo yhi q.
Proof.
  intros Ht H0 H1 H2 H3 [Hx0 Hy0] [Hx1 Hy1] [Hx2 Hy2] [Hx3 Hy3].
  unfold calculateBezierPoint. rewrite H0, H1, H2, H3. simpl.
  eexists. split; [reflexivity|].
  split; simpl; apply bernstein_bounds; assumption.
Qed.

Lemma calculateBezierPoint_in_hull_witness :
  exists q, calculateBezierPoint 0.25 resting_state = Some q /\
            in_box 120 680 120 360 q.
Proof.
  apply (calculateBezierPoint_in_hull resting_state 0.25 120 680 120 360
           {| x := 120; y := 360 |} {| x := 280; y := 120 |}
           {| x := 520; y := 120 |} {| x := 680; y := 360 |});
    try reflexivity; unfold in_box; simpl; lra.
Defined.

(** X3: the tangent at the start of the curve is three times P1 - P0 and
    the tangent at its end is three times P3 - P2. *)
Theorem calculateBezierTangent_ends (s : State) (p0 p1 p2 p3 : Vec) :
  controlPoint s 0 = Some p0 -> controlPoint s 1 = Some p1 ->
  controlPoint s 2 = Some p2 -> controlPoint s 3 = Some p3 ->
  calculateBezierTangent 0 s
  = Some {| x := 3 * (x p1 - x p0); y := 3 * (y p1 - y p0) |} /\
  calculateBezierTangent 1 s
  = Some {| x := 3 * (x p3 - x p2); y := 3 * (y p3 - y p2) |}.
Proof.
  intros H0 H1 H2 H3. unfold calculateBezierTangent.
  rewrite H0, H1, H2, H3. simpl.
  split; f_equal; apply Vec_eq; simpl; ring.
Qed.

Lemma calculateBezierTangent_ends_witness :
  calculateBezierTangent 0 resting_state
  = Some {| x := 3 * (280 - 120); y := 3 * (120 - 360) |} /\
  calculateBezierTangent 1 resting_state
  = Some {| x := 3 * (680 - 520); y := 3 * (360 - 120) |}.
Proof.
  apply (calculateBezierTangent_ends resting_state
           {| x := 120; y := 360 |} {| x := 280; y := 120 |}
           {| x := 520; y := 120 |} {| x := 680; y := 360 |}); reflexivity.
Defined.

(** ** The integrator on a point that is not held *)

Lemma tick_frame_sym s s' : tick_frame s s' -> tick_frame s' s.
Proof. unfold tick_frame. intuition congruence. Qed.

Lemma applyBoundaries_frame (s s' : State) (p v : Vec) :
  canvas s' = canvas s -> devicePixelRatio s' = devicePixelRatio s ->
  applyBoundaries s' p v = applyBoundaries s p v.
Proof.
  intros Hc Hd. unfold applyBoundaries. rewrite Hc, (dpi_frame _ _ Hd).
  reflexivity.
Qed.

Lemma integrator_step_frame (s s' : State) (i : nat) :
  tick_frame s s' ->
  controlPoint s' i = controlPoint s i ->
  velocityOf s' i = velocityOf s i ->
  integrator_step i s' = integrator_step i s.
Proof.
  intros (Hc & Hd & Hi & _ & Hm & _ & Hk & Hda & Hin & _) Hp Hv.
  unfold integrator_step, spring_target, surfaceWidth, surfaceHeight.
  rewrite Hp, Hv, Hm, Hi, Hc, Hk, Hda, Hin, (dpi_frame _ _ Hd).
  destruct (mouse s); [simpl|reflexivity].
  destruct (initialPoints s !! i); [simpl|reflexivity].
  destruct (controlPoint s i); [simpl|reflexivity].
  destruct (velocityOf s i); [simpl|reflexivity].
  rewrite (applyBoundaries_frame s s') by assumption. reflexivity.
Qed.

Lemma maybe_createParticles_ok (c : bool) (x0 y0 : R) (n : nat) (st : State) :
  exists s',
    (if c then createParticles x0 y0 n else ret tt) st = Some (tt, s') /\
    same_core st s' /\
    (particles_enabled (particles st) = false -> s' = st).
Proof.
  destruct c.
  - destruct (createParticles_ok x0 y0 n st) as (s' & Hrun & Hcore).
    exists s'. split; [exact Hrun|]. split; [exact Hcore|].
    intros Hoff. unfold createParticles, bind, get in Hrun.
    rewrite Hoff in Hrun. cbv [negb ret] in Hrun. congruence.
  - exists st. split; [reflexivity|]. split; [apply same_core_refl|reflexivity].
Qed.

(** The loop body at [i] on a point that is not the pointer's target. *)
Lemma updatePoint_free (i : nat) (s : State) (l : loc) (v p rest : Vec) (m : Mouse) :
  controlPointRef s i = Some l ->
  velocityOf s i = Some v ->
  mouse s = Some m ->
  heap s !! l = Some p ->
  initialPoints s !! i = Some rest ->
  targetPoint m <> Some l ->
  exists s' p' v',
    updatePoint i s = Some (tt, s') /\
    integrator_step i s = Some (p', v') /\
    heap s' = <[l := p']> (heap s) /\
    velocities (physics s') = <[(i - 1)%nat := v']> (velocities (physics s)) /\
    (particles_enabled (particles s) = false -> particles s' = particles s).
Proof.
  intros Hl Hv Hm Hp Hrest Hfree.
  assert (controlPoint s i = Some p) as Hcp.
  { unfold controlPoint. rewrite Hl. exact Hp. }
  unfold integrator_step, spring_target, surfaceWidth, surfaceHeight.
  rewrite Hm, Hrest, Hcp, Hv. simpl.
  unfold velocityOf in Hv.
  unfold updatePoint, bind, get, lift. rewrite Hl, Hv, Hm.
  destruct (decide (targetPoint m = Some l)) as [Hheld|_]; [contradiction|].
  rewrite Hp, Hrest.
  destruct (decide (i = 1%nat)) as [Hi|Hi]; cbv beta iota zeta;
    (match goal with
     | |- context [applyBoundaries s ?a ?b] =>
         destruct (applyBoundaries s a b) as [p' v'] eqn:Hclamp
     end);
    cbv [store_point store_velocity modify];
    (match goal with
     | |- context [(if ?c then createParticles ?a ?b ?n else ret tt) ?st] =>
         destruct (maybe_createParticles_ok c a b n st)
           as (s' & Hrun & Hcore & Hoff)
     end);
    exists s', p', v'; (split; [exact Hrun|]);
    destruct Hcore as (Hc1 & _ & _ & _ & _ & Hc6 & _);
    simpl in Hc1, Hc6, Hoff;
    (split; [rewrite <- Hclamp; reflexivity|]); (split; [exact Hc1|]);
    (split; [rewrite Hc6; reflexivity|]);
    intros Hen; rewrite (Hoff Hen); reflexivity.
Qed.

Lemma updatePoint_free_view (j : nat) (s : State) :
  wf s -> j = 1%nat \/ j = 2%nat -> ~ held s j ->
  exists s' p' v',
    updatePoint j s = Some (tt, s') /\
    integrator_step j s = Some (p', v') /\
    controlPoint s' j = Some p' /\ velocityOf s' j = Some v'.
Proof.
  intros Hwf Hj Hfree.
  destruct (wf_controlPoint s j Hwf ltac:(lia)) as (l & p & Hl & Hp & Hcp).
  destruct (lookup_lt_is_Some_2 (velocities (physics s)) (j - 1)) as [v Hv].
  { rewrite (wf_velocities _ Hwf). lia. }
  destruct (wf_mouse _ Hwf) as [m Hm].
  destruct (lookup_lt_is_Some_2 (initialPoints s) j) as [rest Hrest].
  { rewrite (wf_rest _ Hwf). lia. }
  destruct (updatePoint_free j s l v p rest m Hl Hv Hm Hp Hrest)
    as (s' & p' & v' & Hrun & Hstep & Hheap & Hvel & _).
  { intros Ht. apply Hfree. exists m, l. auto. }
  exists s', p', v'. split; [exact Hrun|]. split; [exact Hstep|].
  destruct (updatePoint_view j s Hwf Hj) as (s'' & Hrun' & _ & Hframe & _).
  assert (s'' = s') as -> by congruence.
  pose proof Hframe as (_ & _ & _ & Hc & _).
  split.
  - unfold controlPoint. rewrite (controlPointRef_frame _ _ j Hc), Hl. simpl.
    rewrite Hheap. apply list_lookup_insert_eq. eapply lookup_lt_Some, Hp.
  - unfold velocityOf. rewrite Hvel. apply list_lookup_insert_eq.
    eapply lookup_lt_Some, Hv.
Qed.

Lemma held_frame_iff s s' i : tick_frame s s' -> held s' i <-> held s i.
Proof.
  intros Hf. split; apply held_frame; [apply tick_frame_sym|]; exact Hf.
Qed.

(** A tick on a movable point that is not held. *)
Lemma updatePhysics_free (s : State) (i : nat) :
  wf s -> enabled (physics s) = true -> i = 1%nat \/ i = 2%nat -> ~ held s i ->
  exists s' p' v',
    updatePhysics s = Some (tt, s') /\
    integrator_step i s = Some (p', v') /\
    controlPoint s' i = Some p' /\ velocityOf s' i = Some v'.
Proof.
  intros Hwf Hen Hi Hfree.
  destruct (updatePoint_view 1 s Hwf ltac:(auto))
    as (s1 & Hrun1 & Hwf1 & Hf1 & Hpts1 & Hvel1 & _).
  destruct (updatePoint_view 2 s1 Hwf1 ltac:(auto))
    as (s2 & Hrun2 & Hwf2 & Hf2 & Hpts2 & Hvel2 & _).
  destruct (updateParticles_ok s2) as (s3 & Hrun3 & Hcore3 & _).
  assert (updatePhysics s = Some (tt, s3)) as Hrun.
  { unfold updatePhysics, bind at 1, get. rewrite Hen.
    cbv beta iota delta [negb].
    assert (for_each [1; 2]%nat updatePoint s = Some (tt, s2)) as Hloop.
    { simpl. rewrite (bind_Some _ _ _ _ _ Hrun1), (bind_Some _ _ _ _ _ Hrun2).
      reflexivity. }
    rewrite (bind_Some _ _ _ _ _ Hloop). exact Hrun3. }
  destruct Hi as [-> | ->].
  - destruct (updatePoint_free_view 1 s Hwf ltac:(auto) Hfree)
      as (s1' & p' & v' & Hrun1' & Hstep & Hp' & Hv').
    assert (s1' = s1) as -> by congruence.
    exists s3, p', v'. split; [exact Hrun|]. split; [exact Hstep|].
    rewrite (same_core_controlPoint _ _ _ Hcore3),
            (same_core_velocityOf _ _ _ Hcore3).
    rewrite Hpts2, Hvel2 by (auto; lia). auto.
  - destruct (updatePoint_free_view 2 s1 Hwf1 ltac:(auto))
      as (s2' & p' & v' & Hrun2' & Hstep & Hp' & Hv').
    { rewrite (held_frame_iff _ _ _ Hf1). exact Hfree. }
    assert (s2' = s2) as -> by congruence.
    exists s3, p', v'. split; [exact Hrun|].
    split.
    { rewrite <- Hstep. symmetry. apply integrator_step_frame;
        [exact Hf1|apply Hpts1; lia|apply Hvel1; auto; lia]. }
    rewrite (same_core_controlPoint _ _ _ Hcore3),
            (same_core_velocityOf _ _ _ Hcore3). auto.
Qed.

Lemma applyBoundaries_box (s : State) (p v : Vec) :
  60 <= surfaceWidth s -> 60 <= surfaceHeight s ->
  in_box 30 (surfaceWidth s - 30) 30 (surfaceHeight s - 30)
         (fst (applyBoundaries s p v)).
Proof.
  unfold surfaceWidth, surfaceHeight, in_box, applyBoundaries.
  generalize (width (canvas s) / dpi s) (height (canvas s) / dpi s).
  intros W H HW HH. split_decides; lra.
Qed.

Lemma applyBoundaries_velocity_zero (s : State) (p v : Vec) :
  (x (snd (applyBoundaries s p v)) = 0 -> x v = 0) /\
  (y (snd (applyBoundaries s p v)) = 0 -> y v = 0).
Proof.
  unfold applyBoundaries.
  generalize (width (canvas s) / dpi s) (height (canvas s) / dpi s).
  intros W H. split_decides; lra.
Qed.

(** X4: with the physics enabled, a tick takes a movable point that is not
    held through exactly the integrator steps computed from the state
    before the tick: target from rest pose, pointer offset (mirrored in x
    for P2) and pointer velocity; Hooke force; damped velocity; position;
    clamp.  The update of P2 does not depend on what the tick did to P1. *)
Theorem updatePhysics_integrates (s : State) (i : nat) :
  wf s -> enabled (physics s) = true -> i = 1%nat \/ i = 2%nat -> ~ held s i ->
  exists s' p' v',
    updatePhysics s = Some (tt, s') /\ wf s' /\
    integrator_step i s = Some (p', v') /\
    controlPoint s' i = Some p' /\ velocityOf s' i = Some v'.
Proof.
  intros Hwf Hen Hi Hfree.
  destruct (updatePhysics_free s i Hwf Hen Hi Hfree)
    as (s' & p' & v' & Hrun & Hstep & Hp' & Hv').
  destruct (updatePhysics_view s Hwf) as (s'' & Hrun' & Hwf' & _).
  assert (s'' = s') as -> by congruence.
  exists s', p', v'. auto.
Qed.

Lemma not_held_reactor_800 a b p1 v1 down i :
  ~ held (reactor_800 a b p1 v1 down None) i.
Proof. intros (m & l & Hm & _ & Ht). simpl in Hm. injection Hm as <-. discriminate. Qed.

Lemma updatePhysics_integrates_witness :
  exists s' p' v',
    updatePhysics moving_state = Some (tt, s') /\ wf s' /\
    integrator_step 1 moving_state = Some (p', v') /\
    controlPoint s' 1 = Some p' /\ velocityOf s' 1 = Some v'.
Proof.
  apply (updatePhysics_integrates moving_state 1).
  - apply wf_reactor_800.
  - reflexivity.
  - left. reflexivity.
  - apply not_held_reactor_800.
Defined.

(** X5: on a surface at least 60 by 60 units, after a tick with the physics
    enabled every movable point that is not held lies within the 30-unit
    margins, wherever it was and however fast it moved. *)
Theorem updatePhysics_keeps_free_points_inside (s : State) (i : nat) :
  wf s -> enabled (physics s) = true -> i = 1%nat \/ i = 2%nat -> ~ held s i ->
  60 <= surfaceWidth s -> 60 <= surfaceHeight s ->
  exists s' p',
    updatePhysics s = Some (tt, s') /\
    controlPoint s' i = Some p' /\
    in_box 30 (surfaceWidth s' - 30) 30 (surfaceHeight s' - 30) p'.
Proof.
  intros Hwf Hen Hi Hfree HW HH.
  destruct (updatePhysics_free s i Hwf Hen Hi Hfree)
    as (s' & p' & v' & Hrun & Hstep & Hp' & _).
  exists s', p'. split; [exact Hrun|]. split; [exact Hp'|].
  destruct (updatePhysics_view s Hwf) as (s'' & Hrun' & _ & Hf & _).
  assert (s'' = s') as -> by congruence.
  destruct Hf as (Hc & Hd & _).
  unfold surfaceWidth, surfaceHeight. rewrite Hc, (dpi_frame _ _ Hd).
  unfold integrator_step in Hstep.
  destruct (spring_target i s); [simpl in Hstep|discriminate].
  destruct (controlPoint s i); [simpl in Hstep|discriminate].
  destruct (velocityOf s i); [simpl in Hstep|discriminate].
  injection Hstep as Hstep.
  replace p' with (fst (p', v')) by reflexivity. rewrite <- Hstep.
  apply applyBoundaries_box; assumption.
Qed.

Lemma surface_reactor_800 a b p1 v1 down target :
  surfaceWidth (reactor_800 a b p1 v1 down target) = 800 /\
  surfaceHeight (reactor_800 a b p1 v1 down target) = 600.
Proof.
  unfold surfaceWidth, surfaceHeight. rewrite dpi_reactor_800. simpl. lra.
Qed.

Lemma updatePhysics_keeps_free_points_inside_witness :
  exists s' p',
    updatePhysics moving_state = Some (tt, s') /\
    controlPoint s' 1 = Some p' /\
    in_box 30 (surfaceWidth s' - 30) 30 (surfaceHeight s' - 30) p'.
Proof.
  apply (updatePhysics_keeps_free_points_inside moving_state 1).
  - apply wf_reactor_800.
  - reflexivity.
  - left. reflexivity.
  - apply not_held_reactor_800.
  - unfold moving_state. rewrite (proj1 (surface_reactor_800 _ _ _ _ _ _)). lra.
  - unfold moving_state. rewrite (proj2 (surface_reactor_800 _ _ _ _ _ _)). lra.
Defined.

(** X6: the rest state is the only one: if a movable point that is not
    held has zero velocity before and after a tick (physics enabled,
    stiffness not zero), then it sits exactly at its target. *)
Theorem updatePhysics_rest_only_at_target (s s' : State) (i : nat) :
  wf s -> enabled (physics s) = true -> i = 1%nat \/ i = 2%nat -> ~ held s i ->
  stiffness (physics s) <> 0 ->
  velocityOf s i = Some {| x := 0; y := 0 |} ->
  updatePhysics s = Some (tt, s') ->
  velocityOf s' i = Some {| x := 0; y := 0 |} ->
  exists p, controlPoint s i = Some p /\ spring_target i s = Some p.
Proof.
  intros Hwf Hen Hi Hfree Hk Hv Hrun Hv'.
  destruct (updatePhysics_free s i Hwf Hen Hi Hfree)
    as (s'' & p' & v' & Hrun' & Hstep & _ & Hv'').
  assert (s'' = s') as -> by congruence.
  assert (v' = {| x := 0; y := 0 |}) as -> by congruence.
  unfold integrator_step in Hstep. rewrite Hv in Hstep.
  destruct (spring_target i s) as [target|]; [simpl in Hstep|discriminate].
  destruct (controlPoint s i) as [p|]; [simpl in Hstep|discriminate].
  exists p. split; [reflexivity|]. f_equal.
  injection Hstep as Hstep.
  match type of Hstep with
  | applyBoundaries s ?a ?b = _ =>
      destruct (applyBoundaries_velocity_zero s a b) as [Hx Hy]
  end.
  rewrite Hstep in Hx, Hy. simpl in Hx, Hy.
  specialize (Hx eq_refl). specialize (Hy eq_refl).
  apply Vec_eq.
  - assert (stiffness (physics s) * (x p - x target) = 0) as H by lra.
    apply Rmult_integral in H as [H|H]; [contradiction|lra].
  - assert (stiffness (physics s) * (y p - y target) = 0) as H by lra.
    apply Rmult_integral in H as [H|H]; [contradiction|lra].
Qed.

Lemma updatePhysics_rest_only_at_target_witness :
  exists p, controlPoint resting_state 1 = Some p /\
            spring_target 1 resting_state = Some p.
Proof.
  destruct (updatePhysics_view resting_state (wf_reactor_800 _ _ _ _ _ _))
    as (s' & Hrun & _ & _ & _ & _ & _ & Hon & _).
  apply (updatePhysics_rest_only_at_target resting_state s' 1).
  - apply wf_reactor_800.
  - reflexivity.
  - left. reflexivity.
  - apply not_held_reactor_800.
  - simpl. lra.
  - reflexivity.
  - exact Hrun.
  - apply (Hon eq_refl 1%nat {| x := 280; y := 120 |}); [auto|reflexivity|].
    right. split; [reflexivity|].
    unfold undisturbed, resting_state. rewrite dpi_reactor_800.
    eexists. split; [reflexivity|]. simpl. repeat split; lra.
Defined.

(** ** Pausing *)

Lemma ticks_paused (n : nat) (s : State) :
  enabled (physics s) = false -> ticks n s = Some (tt, s).
Proof.
  intros Hoff. induction n as [|n IH]; [reflexivity|].
  simpl ticks. unfold bind at 1, updatePhysics at 1, bind at 1, get.
  rewrite Hoff. simpl. exact IH.
Qed.

(** X7: while the physics is paused nothing moves and no particle ages:
    pausing, letting any number of frames pass and resuming gives back the
    very state the simulation was paused in. *)
Theorem togglePhysics_freezes (n : nat) (s : State) :
  enabled (physics s) = true ->
  (togglePhysics ;; ticks n ;; togglePhysics) s = Some (tt, s).
Proof.
  intros Hon. unfold bind at 1, togglePhysics at 1, modify at 1.
  unfold bind at 1.
  rewrite ticks_paused by (simpl; rewrite Hon; reflexivity).
  unfold togglePhysics, modify. simpl. rewrite Hon. simpl.
  destruct s as [h c d ip cps [e k da mi vs] m ps r]. simpl in *.
  subst e. reflexivity.
Qed.

Lemma togglePhysics_freezes_witness :
  (togglePhysics ;; ticks 500 ;; togglePhysics) moving_state
  = Some (tt, moving_state).
Proof. apply (togglePhysics_freezes 500 moving_state). reflexivity. Defined.

(** ** The constructed reactor *)

Lemma dpi_initialised (clientWidth : Z) (dpr : R) (rnd : nat -> R) :
  dpi (initialised clientWidth dpr rnd) = dpi (blank dpr rnd).
Proof. reflexivity. Qed.

Lemma not_held_initialised_on c dpr rnd i :
  ~ held (initialised_on c dpr rnd) i.
Proof. intros (m & l & Hm & _ & Ht). simpl in Hm. injection Hm as <-. discriminate. Qed.

Lemma ticks_frame (n : nat) : forall s,
  wf s -> exists s', ticks n s = Some (tt, s') /\ wf s' /\ tick_frame s s'.
Proof.
  induction n as [|n IH]; intros s Hwf.
  - exists s. split; [reflexivity|]. split; [exact Hwf|apply tick_frame_refl].
  - destruct (updatePhysics_view s Hwf) as (s1 & Hrun & Hwf1 & Hf1 & _).
    destruct (IH s1 Hwf1) as (s' & Hticks & Hwf' & Hf').
    exists s'. simpl ticks. rewrite (bind_Some _ _ _ _ _ Hrun).
    split; [exact Hticks|]. split; [exact Hwf'|].
    eapply tick_frame_trans; eassumption.
Qed.

Lemma constructor_ticks (clientWidth : Z) (dpr : R) (rnd : nat -> R) (n : nat) :
  (constructor clientWidth ;; ticks n) (blank dpr rnd)
  = ticks (S n) (initialised clientWidth dpr rnd).
Proof. unfold bind at 1. rewrite constructor_run. reflexivity. Qed.

(** X8: at pixel ratio 1 (or an unset one) and on a container at least 100
    units wide (and no wider than a DOM [long] can say), the freshly
    constructed reactor is in equilibrium: after the constructor and any
    number of ticks P1 and P2 are at their rest pose, that of a surface
    [clientWidth] by 600, with zero velocity. *)
Theorem constructor_at_equilibrium (clientWidth : Z) (dpr : R)
    (rnd : nat -> R) (n i : nat) :
  dpr = 1 \/ dpr = 0 -> (100 <= clientWidth <= 2147483647)%Z ->
  i = 1%nat \/ i = 2%nat ->
  exists s' p,
    (constructor clientWidth ;; ticks n) (blank dpr rnd) = Some (tt, s') /\
    rest_pose (IZR clientWidth) 600 !! i = Some p /\
    initialPoints s' !! i = Some p /\ at_rest s' i p.
Proof.
  intros Hd Hw Hi. rewrite constructor_ticks.
  assert (dpi (blank dpr rnd) = 1) as Hdpi.
  { unfold dpi. simpl. destruct (decide (dpr = 0)); lra. }
  assert (100 <= IZR clientWidth) as Hw' by (apply IZR_le; lia).
  unfold initialised.
  rewrite (backing_store_unit clientWidth (blank dpr rnd)) by (try lia; exact Hdpi).
  set (s0 := initialised_on {| width := IZR clientWidth; height := 600 |} dpr rnd).
  assert (dpi s0 = 1) as Hdpi0 by exact Hdpi.
  assert (exists p, rest_pose (IZR clientWidth) 600 !! i = Some p
                    /\ initialPoints s0 !! i = Some p
                    /\ at_rest s0 i p /\ undisturbed s0 i p)
    as (p & Hpose & Hrest & Hat & Hund).
  { destruct Hi as [-> | ->]; (eexists; split; [reflexivity|]);
      (split; [unfold s0, initialised_on; simpl; rewrite Hdpi, !Rdiv_1_r;
               reflexivity|]);
      (split; [split; [|reflexivity];
               unfold s0, initialised_on, controlPoint, controlPointRef; simpl;
               rewrite Hdpi, !Rdiv_1_r; reflexivity|]);
      unfold undisturbed; rewrite Hdpi0;
      (eexists; split; [reflexivity|]); simpl; rewrite Hdpi, !Rdiv_1_r;
      repeat split; lra. }
  destruct (ticks_stationary_any_parameters s0 i p (wf_initialised_on _ _ _)
              Hi Hund Hat (S n)) as (s' & Hticks & Hat').
  exists s', p. split; [exact Hticks|]. split; [exact Hpose|].
  split; [|exact Hat'].
  destruct (ticks_frame (S n) s0 (wf_initialised_on _ _ _))
    as (s'' & Hticks' & _ & _ & _ & Hinit & _).
  assert (s'' = s') as -> by congruence.
  rewrite Hinit. exact Hrest.
Qed.

Lemma constructor_at_equilibrium_witness :
  exists s' p,
    (constructor 800 ;; ticks 60) (blank 1 (fun _ => 0.5)) = Some (tt, s') /\
    rest_pose 800 600 !! 1%nat = Some p /\
    initialPoints s' !! 1%nat = Some p /\ at_rest s' 1 p.
Proof.
  apply (constructor_at_equilibrium 800 1 (fun _ => 0.5) 60 1).
  - left. reflexivity.
  - lia.
  - left. reflexivity.
Defined.

(** X9: at any other pixel ratio the constructor leaves the pointer off the
    centre the integrator measures from ([mouse.x] is set in surface units
    and read in device units), so the curve is not in equilibrium: unless
    the canvas is 0 wide, the frame the constructor ends with gives P1 and
    P2 a horizontal velocity that is not zero. *)
Theorem constructor_off_centre (clientWidth : Z) (dpr : R) (rnd : nat -> R)
    (i : nat) :
  dpr <> 0 -> dpr <> 1 ->
  width (backing_store clientWidth (blank dpr rnd)) <> 0 ->
  i = 1%nat \/ i = 2%nat ->
  exists s' v',
    constructor clientWidth (blank dpr rnd) = Some (tt, s') /\
    velocityOf s' i = Some v' /\ x v' <> 0.
Proof.
  intros Hd0 Hd1 Hw Hi. rewrite constructor_run. unfold animate, initialised.
  revert Hw. generalize (backing_store clientWidth (blank dpr rnd)).
  intros c Hw.
  assert (dpi (blank dpr rnd) = dpr) as Hdpi.
  { unfold dpi. simpl. destruct (decide (dpr = 0)); [contradiction|reflexivity]. }
  destruct (updatePhysics_free (initialised_on c dpr rnd) i
              (wf_initialised_on _ _ _) eq_refl Hi (not_held_initialised_on _ _ _ _))
    as (s' & p' & v' & Hrun & Hstep & _ & Hv').
  exists s', v'. split; [exact Hrun|]. split; [exact Hv'|].
  intros Hzero.
  unfold integrator_step, spring_target, surfaceWidth, surfaceHeight in Hstep.
  change (dpi (initialised_on c dpr rnd)) with (dpi (blank dpr rnd)) in Hstep.
  rewrite Hdpi in Hstep.
  assert (width c / (2 * dpr) / dpr - width c / dpr / 2
          = width c * ((1 - dpr) / (2 * dpr * dpr))) as Hoff by (field; exact Hd0).
  assert (width c * ((1 - dpr) / (2 * dpr * dpr)) <> 0) as Hne.
  { apply Rmult_integral_contrapositive_currified; [exact Hw|].
    unfold Rdiv. apply Rmult_integral_contrapositive_currified; [lra|].
    apply Rinv_neq_0_compat.
    repeat apply Rmult_integral_contrapositive_currified; lra. }
  destruct Hi as [-> | ->]; simpl in Hstep; rewrite Hdpi in Hstep;
    injection Hstep as Hstep;
    match type of Hstep with
    | applyBoundaries _ ?a ?b = _ =>
        destruct (applyBoundaries_velocity_zero
                    (initialised_on c dpr rnd) a b) as [Hx _]
    end;
    rewrite Hstep in Hx; simpl in Hx; specialize (Hx Hzero);
    rewrite Hoff in Hx; apply Hne; lra.
Qed.

(** A container 800 wide at pixel ratio 2: the canvas is 1600 wide. *)
Lemma constructor_off_centre_witness :
  exists s' v',
    constructor 800 (blank 2 (fun _ => 0.5)) = Some (tt, s') /\
    velocityOf s' 1 = Some v' /\ x v' <> 0.
Proof.
  apply (constructor_off_centre 800 2 (fun _ => 0.5) 1); try lra.
  - assert (dpi (blank 2 (fun _ => 0.5)) = 2) as Hd.
    { unfold dpi. simpl. destruct (decide (2 = 0)); [lra|reflexivity]. }
    rewrite (backing_store_floor 800 _) by (try lia; rewrite Hd; lra).
    rewrite Hd. simpl.
    replace (Int_part (800 * 2)) with 1600%Z by (apply Int_part_spec; lra).
    lra.
  - left. reflexivity.
Defined.

(** ** How long a particle lives *)

Lemma repeat_updateParticles_upper (b d : R) (n : nat) : forall s,
  Forall (fun p => life p <= b /\ d <= decay p) (plist (particles s)) ->
  exists s',
    repeat_times n updateParticles s = Some (tt, s') /\
    Forall (fun p => life p <= b - INR n * d /\ d <= decay p) (plist (particles s')) /\
    ((1 <= n)%nat -> Forall (fun p => 0 < life p) (plist (particles s'))).
Proof.
  induction n as [|n IH]; intros s Hall.
  - exists s. split; [reflexivity|]. split; [|lia].
    eapply Forall_impl; [exact Hall|]. simpl. intros p [? ?]. split; lra.
  - destruct (IH s Hall) as (s1 & Hrun1 & Hinv & _).
    destruct (updateParticles_ok s1) as (s2 & Hrun2 & _ & _ & Hl).
    exists s2. split.
    { clear IH Hinv Hl Hall. revert s s1 Hrun1 Hrun2.
      induction n as [|n IHn]; intros s s1 Hrun1 Hrun2.
      - injection Hrun1 as <-. simpl. rewrite (bind_Some _ _ _ _ _ Hrun2).
        reflexivity.
      - simpl in Hrun1. unfold bind in Hrun1.
        destruct (updateParticles s) as [[[] sa]|] eqn:Ha; [|discriminate].
        change (repeat_times (S (S n)) updateParticles)
          with (updateParticles ;; repeat_times (S n) updateParticles).
        rewrite (bind_Some _ _ _ _ _ Ha). eapply IHn; eassumption. }
    rewrite Hl. split.
    + apply Forall_forall. intros q Hq.
      apply list_elem_of_filter in Hq as [_ Hq].
      apply list_elem_of_fmap in Hq as (p & -> & Hp).
      rewrite Forall_forall in Hinv. destruct (Hinv p Hp) as [H1 H2].
      rewrite S_INR. simpl. split; lra.
    + intros _. apply Forall_forall. intros q Hq.
      apply list_elem_of_filter in Hq as [Hq _]. exact Hq.
Qed.

Lemma repeat_updateParticles_lower (d : R) (n : nat) : forall b s,
  Forall (fun p => b <= life p /\ decay p <= d) (plist (particles s)) ->
  0 < b - INR n * d ->
  0 <= d ->
  exists s',
    repeat_times n updateParticles s = Some (tt, s') /\
    plist (particles s') = Nat.iter n advance <$> plist (particles s).
Proof.
  induction n as [|n IH]; intros b s Hall Hb Hd.
  - exists s. split; [reflexivity|]. simpl. rewrite list_fmap_id. reflexivity.
  - destruct (updateParticles_ok s) as (s1 & Hrun1 & _ & _ & Hl).
    rewrite S_INR in Hb.
    assert (plist (particles s1) = advance <$> plist (particles s)) as Hl1.
    { rewrite Hl. clear Hl. induction (plist (particles s)) as [|p l IHl];
        [reflexivity|].
      apply Forall_cons in Hall as [[Hp1 Hp2] Hall].
      simpl fmap. rewrite filter_cons_True.
      - f_equal. apply IHl, Hall.
      - simpl. pose proof (pos_INR n). nra. }
    destruct (IH (b - d) s1) as (s' & Hrun & Hl').
    + rewrite Hl1. apply Forall_fmap. eapply Forall_impl; [exact Hall|].
      simpl. intros p [H1 H2]. split; lra.
    + lra.
    + exact Hd.
    + exists s'. simpl repeat_times. rewrite (bind_Some _ _ _ _ _ Hrun1).
      split; [exact Hrun|]. rewrite Hl', Hl1, <- list_fmap_compose.
      apply list_fmap_ext. intros _ p _. simpl.
      clear. induction n as [|n IHn]; [reflexivity|]. simpl. rewrite IHn.
      reflexivity.
Qed.

(** X10: a particle as [createParticles] makes it (life in [0.5, 1], decay
    in [0.01, 0.03], both ends included) is never removed during its first
    16 particle ticks and is always gone after 100: the collection cannot
    grow without bound. *)
Theorem particle_lifetime (s : State) :
  Forall (fun p => 0.5 <= life p <= 1 /\ 0.01 <= decay p <= 0.03)
         (plist (particles s)) ->
  (forall n, (n <= 16)%nat ->
     exists s', repeat_times n updateParticles s = Some (tt, s') /\
                plist (particles s') = Nat.iter n advance <$> plist (particles s)) /\
  (exists s', repeat_times 100 updateParticles s = Some (tt, s') /\
              plist (particles s') = []).
Proof.
  intros Hall. split.
  - intros n Hn. apply (repeat_updateParticles_lower 0.03 n 0.5).
    + eapply Forall_impl; [exact Hall|]. simpl. intros p ?. lra.
    + apply le_INR in Hn. simpl in Hn. lra.
    + lra.
  - destruct (repeat_updateParticles_upper 1 0.01 100 s)
      as (s' & Hrun & Hup & Hpos).
    { eapply Forall_impl; [exact Hall|]. simpl. intros p ?. lra. }
    exists s'. split; [exact Hrun|].
    specialize (Hpos ltac:(lia)).
    destruct (plist (particles s')) as [|q l]; [reflexivity|].
    apply Forall_cons in Hup as [[Hq _] _].
    apply Forall_cons in Hpos as [Hq' _].
    replace (INR 100) with 100 in Hq by (simpl; lra). lra.
Qed.

Lemma particle_lifetime_witness :
  exists s', repeat_times 100 updateParticles fresh_sparks_state = Some (tt, s') /\
             plist (particles s') = [].
Proof.
  apply (particle_lifetime fresh_sparks_state).
  unfold fresh_sparks_state, fresh_sparks. simpl.
  repeat constructor; simpl; lra.
Defined.

(** ** Pointer handling, step by step *)

Lemma createParticles_len (x0 y0 : R) (n : nat) (st : State) :
  exists s' new,
    createParticles x0 y0 n st = Some (tt, s') /\ same_core st s' /\
    plist (particles s') = plist (particles st) ++ new /\
    length new = (if particles_enabled (particles st) then n else 0%nat).
Proof.
  unfold createParticles, bind, get.
  destruct (particles_enabled (particles st)); simpl.
  - destruct (repeat_spawn_spec x0 y0 n st) as (new & s' & Hrun & Hcore & Hl & Hlen & _).
    exists s', new. auto.
  - exists st, []. rewrite app_nil_r. repeat split; auto using same_core_refl.
Qed.

Lemma maybe_createParticles_len (c : bool) (x0 y0 : R) (n : nat) (st : State) :
  exists s' new,
    (if c then createParticles x0 y0 n else ret tt) st = Some (tt, s') /\
    same_core st s' /\
    plist (particles s') = plist (particles st) ++ new /\
    length new = (if c && particles_enabled (particles st) then n else 0%nat).
Proof.
  destruct c; simpl.
  - apply createParticles_len.
  - exists st, []. rewrite app_nil_r. repeat split; auto using same_core_refl.
Qed.

Lemma cancel_dpi (a : R) (s : State) : a * dpi s / dpi s = a.
Proof. field. apply dpi_nonzero. Qed.

Lemma wf_same_core (s s' : State) : same_core s s' -> wf s -> wf s'.
Proof. intros H. apply wf_frame, same_core_tick_frame, H. Qed.

Lemma held_same_core (s s' : State) i : same_core s s' -> held s' i <-> held s i.
Proof.
  intros (_ & _ & _ & _ & Hc & _ & Hm & _). unfold held.
  rewrite Hm, (controlPointRef_frame _ _ _ Hc). reflexivity.
Qed.

(** What a press selects, in terms of the distances to P1 and P2. *)
Lemma nearest_grabbed (q p1 p2 : Vec) (s : State) :
  wf s -> controlPoint s 1 = Some p1 -> controlPoint s 2 = Some p2 ->
  nearestAmong [1; 2]%nat (x q) (y q) 30 s
  = Some (i ← grabbed q p1 p2; controlPointRef s i) /\
  (forall i, grabbed q p1 p2 = Some i -> i = 1%nat \/ i = 2%nat).
Proof.
  intros Hwf Hc1 Hc2.
  destruct (wf_controlPoint s 1 Hwf ltac:(lia)) as (l1 & p1' & Hl1 & Hp1 & Hc1').
  destruct (wf_controlPoint s 2 Hwf ltac:(lia)) as (l2 & p2' & Hl2 & Hp2 & Hc2').
  assert (p1' = p1) as -> by congruence.
  assert (p2' = p2) as -> by congruence.
  unfold grabbed, distance. cbn [nearestAmong].
  rewrite Hl1. cbn [mbind option_bind]. rewrite Hp1. cbn [mbind option_bind].
  destruct (decide (sqrt ((x p1 - x q) ^ 2 + (y p1 - y q) ^ 2) < 30)).
  - cbn [mbind option_bind]. rewrite Hl1. split; [reflexivity|].
    intros i [= <-]. auto.
  - rewrite Hl2. cbn [mbind option_bind]. rewrite Hp2. cbn [mbind option_bind].
    destruct (decide (sqrt ((x p2 - x q) ^ 2 + (y p2 - y q) ^ 2) < 30)).
    + cbn [mbind option_bind]. rewrite Hl2. split; [reflexivity|].
      intros i [= <-]. auto.
    + split; [reflexivity|]. discriminate.
Qed.

(** The press handler: button down, target chosen, burst of 15. *)
Lemma handleMouseDown_run (e : MouseEvent) (rect : DOMRect) (s : State)
    (m : Mouse) (p1 p2 : Vec) :
  wf s -> mouse s = Some m ->
  controlPoint s 1 = Some p1 -> controlPoint s 2 = Some p2 ->
  exists s' new,
    handleMouseDown e rect s = Some (tt, s') /\
    same_core
      (set_mouse (Some (mkMouse (mouse_x m) (mouse_y m) (px m) (py m) (vx m) (vy m)
                                true (i ← grabbed (pointer e rect) p1 p2;
                                      controlPointRef s i))) s) s' /\
    plist (particles s') = plist (particles s) ++ new /\
    length new = (if particles_enabled (particles s) then 15%nat else 0%nat).
Proof.
  intros Hwf Hm Hc1 Hc2.
  destruct (nearest_grabbed (pointer e rect) p1 p2 s Hwf Hc1 Hc2) as (Hnear & _).
  cbv [handleMouseDown bind get lift modify getNearestControlPoint]. rewrite Hm.
  cbn [mouse set_mouse particles].
  match goal with
  | |- context [nearestAmong _ ?a ?b 30 ?st] =>
      change (nearestAmong [1; 2]%nat a b 30 st)
        with (nearestAmong [1; 2]%nat a b 30 s);
      replace a with (x (pointer e rect))
        by (symmetry; apply (cancel_dpi _ s));
      replace b with (y (pointer e rect))
        by (symmetry; apply (cancel_dpi _ s))
  end.
  rewrite Hnear.
  match goal with
  | |- context [(if ?c then createParticles ?a ?b ?n else ret tt) ?st] =>
      destruct (maybe_createParticles_len c a b n st)
        as (s' & new & Hrun & Hcore & Hl & Hlen)
  end.
  exists s', new. split; [exact Hrun|]. split; [exact Hcore|]. split; [exact Hl|].
  rewrite Hlen. simpl. destruct (particles_enabled (particles s)); reflexivity.
Qed.

Lemma handleMouseDown_view (e : MouseEvent) (rect : DOMRect) (s : State)
    (p1 p2 : Vec) :
  wf s -> controlPoint s 1 = Some p1 -> controlPoint s 2 = Some p2 ->
  exists s',
    handleMouseDown e rect s = Some (tt, s') /\ wf s' /\
    pointer_down s' = true /\
    (forall i, held s' i <-> grabbed (pointer e rect) p1 p2 = Some i) /\
    (forall i, controlPoint s' i = controlPoint s i) /\
    physics s' = physics s.
Proof.
  intros Hwf Hc1 Hc2. destruct (wf_mouse _ Hwf) as [m Hm].
  destruct (handleMouseDown_run e rect s m p1 p2 Hwf Hm Hc1 Hc2)
    as (s' & new & Hrun & Hcore & Hl & Hlen).
  destruct (nearest_grabbed (pointer e rect) p1 p2 s Hwf Hc1 Hc2) as (_ & Hrange).
  exists s'. split; [exact Hrun|].
  split; [eapply wf_same_core; [exact Hcore|apply wf_set_mouse, Hwf]|].
  pose proof Hcore as (_ & _ & _ & _ & Hc & Hph & Hmo & _). simpl in Hc, Hph, Hmo.
  split; [unfold pointer_down; rewrite Hmo; reflexivity|].
  split.
  { intros i. rewrite (held_same_core _ _ i Hcore). unfold held. simpl. split.
    - intros (m' & l & [= <-] & Hl' & Ht). simpl in Ht.
      destruct (grabbed (pointer e rect) p1 p2) as [j|]; [|discriminate].
      simpl in Ht. f_equal. eapply wf_distinct; eassumption.
    - intros Hg. destruct (Hrange i Hg) as [-> | ->].
      + destruct (wf_controlPoint s 1 Hwf ltac:(lia)) as (l & ? & Hl' & _).
        eexists _, l. split; [reflexivity|]. split; [exact Hl'|].
        simpl. rewrite Hg. exact Hl'.
      + destruct (wf_controlPoint s 2 Hwf ltac:(lia)) as (l & ? & Hl' & _).
        eexists _, l. split; [reflexivity|]. split; [exact Hl'|].
        simpl. rewrite Hg. exact Hl'. }
  split; [intros i; apply (same_core_controlPoint _ _ i Hcore)|exact Hph].
Qed.

(** X11: a press makes the button down and grabs P1 if the pointer is
    within 30 units of P1, else P2 if it is within 30 units of P2, else
    nothing; P1 wins even where P2 is the nearer one.  It moves no control
    point, leaves the physics state alone and adds a burst of 15 particles
    when the effects are on. *)
Theorem handleMouseDown_grabs (e : MouseEvent) (rect : DOMRect) (s : State)
    (p1 p2 : Vec) :
  wf s -> controlPoint s 1 = Some p1 -> controlPoint s 2 = Some p2 ->
  exists s',
    handleMouseDown e rect s = Some (tt, s') /\ wf s' /\
    pointer_down s' = true /\
    (forall i, held s' i <-> grabbed (pointer e rect) p1 p2 = Some i) /\
    (forall i, controlPoint s' i = controlPoint s i) /\
    physics s' = physics s /\
    length (plist (particles s'))
    = (length (plist (particles s))
       + (if particles_enabled (particles s) then 15 else 0))%nat.
Proof.
  intros Hwf Hc1 Hc2. destruct (wf_mouse _ Hwf) as [m Hm].
  destruct (handleMouseDown_view e rect s p1 p2 Hwf Hc1 Hc2)
    as (s' & Hrun & Hwf' & Hdown & Hheld & Hpts & Hph).
  destruct (handleMouseDown_run e rect s m p1 p2 Hwf Hm Hc1 Hc2)
    as (s'' & new & Hrun' & _ & Hl & Hlen).
  assert (s'' = s') as -> by congruence.
  exists s'. repeat (split; [assumption|]).
  rewrite Hl, length_app, Hlen. reflexivity.
Qed.

Lemma handleMouseDown_grabs_witness :
  exists s',
    handleMouseDown {| clientX := 285; clientY := 130 |} {| left := 0; top := 0 |}
                    resting_state = Some (tt, s') /\
    wf s' /\ pointer_down s' = true.
Proof.
  destruct (handleMouseDown_grabs {| clientX := 285; clientY := 130 |}
              {| left := 0; top := 0 |} resting_state
              {| x := 280; y := 120 |} {| x := 520; y := 120 |})
    as (s' & Hrun & Hwf & Hdown & _).
  - apply wf_reactor_800.
  - reflexivity.
  - reflexivity.
  - exists s'. auto.
Defined.

Lemma handleMouseMove_run (e : MouseEvent) (rect : DOMRect) (s : State) (m : Mouse) :
  mouse s = Some m ->
  exists s' m' new,
    handleMouseMove e rect s = Some (tt, s') /\
    same_core (moved e rect s m) s' /\
    mouse s' = Some m' /\
    mouse_x m' = (clientX e - left rect) * dpi s /\
    mouse_y m' = (clientY e - top rect) * dpi s /\
    px m' = mouse_x m /\ py m' = mouse_y m /\
    vx m' = (mouse_x m' - mouse_x m) * 0.5 /\
    vy m' = (mouse_y m' - mouse_y m) * 0.5 /\
    isDown m' = isDown m /\ targetPoint m' = targetPoint m /\
    plist (particles s') = plist (particles s) ++ new /\
    length new = (if fast m' && particles_enabled (particles s)
                  then 2%nat else 0%nat).
Proof.
  intros Hm. cbv [handleMouseMove bind get lift modify store_point]. rewrite Hm.
  cbn [mouse set_mouse heap].
  assert (forall st, same_core (moved e rect s m) st ->
             mouse st
             = Some (mkMouse ((clientX e - left rect) * dpi s)
                             ((clientY e - top rect) * dpi s)
                             (mouse_x m) (mouse_y m)
                             (((clientX e - left rect) * dpi s - mouse_x m) * 0.5)
                             (((clientY e - top rect) * dpi s - mouse_y m) * 0.5)
                             (isDown m) (targetPoint m)) /\
             particles_enabled (particles st) = particles_enabled (particles s))
    as Hview.
  { intros st (_ & _ & _ & _ & _ & _ & -> & -> & _). unfold moved.
    destruct (isDown m), (targetPoint m); split; reflexivity. }
  unfold moved.
  destruct (isDown m) eqn:Hdown, (targetPoint m) as [target|] eqn:Ht;
    cbv beta iota delta [ret];
    (match goal with
     | |- context [(if ?c then createParticles ?a ?b ?n else _) ?st] =>
         destruct (maybe_createParticles_len c a b n st)
           as (s' & new & Hrun & Hcore & Hl & Hlen)
     end);
    (eexists s', _, new; split; [exact Hrun|]; split; [exact Hcore|]);
    (split; [apply Hview; unfold moved; rewrite Hdown, ?Ht; exact Hcore|]);
    simpl; repeat (split; [reflexivity|]); (split; [exact Hl|exact Hlen]).
Qed.

Lemma wf_moved (e : MouseEvent) (rect : DOMRect) (s : State) (m : Mouse) :
  wf s -> wf (moved e rect s m).
Proof.
  intros Hwf. apply (wf_transport s); unfold moved;
    destruct (isDown m), (targetPoint m); simpl;
    rewrite ?length_insert; eauto.
Qed.

Lemma controlPoint_moved_other (e : MouseEvent) (rect : DOMRect) (s : State)
    (m : Mouse) (j : nat) :
  (forall l, targetPoint m = Some l -> controlPointRef s j <> Some l) ->
  controlPoint (moved e rect s m) j = controlPoint s j.
Proof.
  intros Hother. unfold moved.
  destruct (isDown m), (targetPoint m) as [target|]; try reflexivity.
  unfold controlPoint, controlPointRef. simpl.
  fold (controlPointRef s j).
  destruct (controlPointRef s j) as [l|] eqn:Hl; [simpl|reflexivity].
  apply list_lookup_insert_ne. intros ->. exact (Hother l eq_refl eq_refl).
Qed.

(** X12: while the button is down, a mouse move stores the pointer in
    device units, [(clientX - rect.left) * dpi], and puts the held point at
    that number divided by [dpi] again: at pixel ratio 1 exactly at the
    pointer.  The point stays held, no other control point and no velocity
    is touched. *)
Theorem handleMouseMove_drags_held (e : MouseEvent) (rect : DOMRect)
    (s : State) (i : nat) :
  wf s -> held s i -> pointer_down s = true ->
  exists s' m',
    handleMouseMove e rect s = Some (tt, s') /\ wf s' /\ held s' i /\
    mouse s' = Some m' /\
    mouse_x m' = (clientX e - left rect) * dpi s /\
    mouse_y m' = (clientY e - top rect) * dpi s /\
    controlPoint s' i
    = Some {| x := mouse_x m' / dpi s; y := mouse_y m' / dpi s |} /\
    (dpi s = 1 -> controlPoint s' i = Some (pointer e rect)) /\
    (forall j, j <> i -> controlPoint s' j = controlPoint s j) /\
    physics s' = physics s.
Proof.
  intros Hwf (m & l & Hm & Hl & Ht) Hdown.
  unfold pointer_down in Hdown. rewrite Hm in Hdown. simpl in Hdown.
  destruct (handleMouseMove_run e rect s m Hm)
    as (s' & m' & new & Hrun & Hcore & Hm' & Hmx & Hmy & _ & _ & _ & _ & _ & Ht' & _).
  exists s', m'. split; [exact Hrun|].
  split; [eapply wf_same_core; [exact Hcore|apply wf_moved, Hwf]|].
  pose proof Hcore as (Hh & _ & _ & _ & Hc & Hph & _).
  split.
  { exists m', l. split; [exact Hm'|].
    rewrite (controlPointRef_frame _ _ _ Hc). split; [|congruence].
    unfold moved. destruct (isDown m), (targetPoint m); exact Hl. }
  split; [exact Hm'|]. split; [exact Hmx|]. split; [exact Hmy|].
  assert (controlPoint s' i
          = Some {| x := mouse_x m' / dpi s; y := mouse_y m' / dpi s |}) as Hpos.
  { rewrite (same_core_controlPoint _ _ _ Hcore), Hmx, Hmy.
    unfold moved. rewrite Hdown, Ht.
    unfold controlPoint, controlPointRef. simpl.
    fold (controlPointRef s i). rewrite Hl. simpl.
    apply list_lookup_insert_eq.
    destruct (wf_controlPoint s i Hwf) as (l' & p & Hl' & Hp & _).
    - destruct Hwf as [(l0 & l1 & l2 & l3 & Hcps & _) _ _ _].
      unfold controlPointRef in Hl. rewrite Hcps in Hl. simpl in Hl.
      apply lookup_lt_Some in Hl. exact Hl.
    - assert (l' = l) as -> by congruence. eapply lookup_lt_Some, Hp. }
  split; [exact Hpos|].
  split.
  { intros Hd. rewrite Hpos, Hmx, Hmy, Hd, !Rmult_1_r, !Rdiv_1_r. reflexivity. }
  split.
  { intros j Hj. rewrite (same_core_controlPoint _ _ _ Hcore).
    apply controlPoint_moved_other. intros l' Hl' Hjl.
    apply Hj. eapply (wf_distinct s j i l'); [exact Hwf|exact Hjl|congruence]. }
  rewrite Hph. unfold moved. destruct (isDown m), (targetPoint m); reflexivity.
Qed.

Lemma held_dragging_state : held (dragging_state true) 1.
Proof. eexists _, _. repeat split; reflexivity. Qed.

Lemma handleMouseMove_drags_held_witness :
  exists s',
    handleMouseMove {| clientX := 350; clientY := 260 |} {| left := 10; top := 20 |}
                    (dragging_state true) = Some (tt, s') /\
    controlPoint s' 1 = Some {| x := 350 - 10; y := 260 - 20 |}.
Proof.
  destruct (handleMouseMove_drags_held {| clientX := 350; clientY := 260 |}
              {| left := 10; top := 20 |} (dragging_state true) 1)
    as (s' & m' & Hrun & _ & _ & _ & _ & _ & _ & Hp & _).
  - apply wf_reactor_800.
  - apply held_dragging_state.
  - reflexivity.
  - exists s'. split; [exact Hrun|]. apply Hp.
    unfold dragging_state. apply dpi_reactor_800.
Defined.

Lemma handleMouseMove_hover_view (e : MouseEvent) (rect : DOMRect) (s : State) :
  wf s -> none_held s ->
  exists s',
    handleMouseMove e rect s = Some (tt, s') /\ wf s' /\ none_held s' /\
    (forall j, controlPoint s' j = controlPoint s j) /\
    initialPoints s' = initialPoints s /\
    physics s' = physics s.
Proof.
  intros Hwf Hnone. destruct (wf_mouse _ Hwf) as [m Hm].
  destruct (handleMouseMove_run e rect s m Hm)
    as (s' & m' & new & Hrun & Hcore & Hm' & _ & _ & _ & _ & _ & _
        & _ & Ht' & _).
  exists s'. split; [exact Hrun|].
  split; [eapply wf_same_core; [exact Hcore|apply wf_moved, Hwf]|].
  pose proof Hcore as (_ & _ & _ & Hi & Hc & Hph & _).
  assert (forall j l, targetPoint m = Some l -> controlPointRef s j <> Some l)
    as Hother.
  { intros j l Ht Hjl. apply (Hnone j). exists m, l. auto. }
  assert (controlPoints (moved e rect s m) = controlPoints s) as Hcm.
  { unfold moved. destruct (isDown m), (targetPoint m); reflexivity. }
  split.
  { intros j (m'' & l & Hm'' & Hl' & Ht''). assert (m'' = m') as -> by congruence.
    rewrite (controlPointRef_frame _ _ _ Hc), (controlPointRef_frame _ _ _ Hcm) in Hl'.
    apply (Hother j l); congruence. }
  split.
  { intros j. rewrite (same_core_controlPoint _ _ _ Hcore).
    apply controlPoint_moved_other. intros l. apply Hother. }
  split.
  { rewrite Hi. unfold moved. destruct (isDown m), (targetPoint m); reflexivity. }
  rewrite Hph. unfold moved. destruct (isDown m), (targetPoint m); reflexivity.
Qed.

(** X13: while no control point is held (button up, press on empty
    surface, or a target that is no longer a control point), a mouse move
    leaves every control point and the physics state as they are.  It
    records the pointer in device units with a velocity of half the
    displacement, and spawns a burst of exactly 2 particles when that
    velocity exceeds 2 on an axis and the effects are on, none otherwise. *)
Theorem handleMouseMove_hovers (e : MouseEvent) (rect : DOMRect) (s : State)
    (m : Mouse) :
  wf s -> mouse s = Some m -> none_held s ->
  exists s' m',
    handleMouseMove e rect s = Some (tt, s') /\ wf s' /\ none_held s' /\
    (forall j, controlPoint s' j = controlPoint s j) /\
    physics s' = physics s /\
    mouse s' = Some m' /\
    mouse_x m' = (clientX e - left rect) * dpi s /\
    mouse_y m' = (clientY e - top rect) * dpi s /\
    vx m' = (mouse_x m' - mouse_x m) * 0.5 /\
    vy m' = (mouse_y m' - mouse_y m) * 0.5 /\
    length (plist (particles s'))
    = (length (plist (particles s))
       + (if fast m' && particles_enabled (particles s) then 2 else 0))%nat.
Proof.
  intros Hwf Hm Hnone.
  destruct (handleMouseMove_hover_view e rect s Hwf Hnone)
    as (s' & Hrun & Hwf' & Hnone' & Hpts & _ & Hph).
  destruct (handleMouseMove_run e rect s m Hm)
    as (s'' & m' & new & Hrun' & _ & Hm' & Hx & Hy & _ & _ & Hvx & Hvy
        & _ & _ & Hl & Hlen).
  assert (s'' = s') as -> by congruence.
  exists s', m'. repeat (split; [assumption|]).
  rewrite Hl, length_app, Hlen. reflexivity.
Qed.

Lemma none_held_no_target a b p1 v1 down : none_held (reactor_800 a b p1 v1 down None).
Proof. intros i. apply not_held_reactor_800. Qed.

Lemma handleMouseMove_hovers_witness :
  exists s' m',
    handleMouseMove {| clientX := 410; clientY := 300 |} {| left := 0; top := 0 |}
                    resting_state = Some (tt, s') /\
    (forall j, controlPoint s' j = controlPoint resting_state j) /\
    mouse s' = Some m' /\ vx m' = (mouse_x m' - 400) * 0.5.
Proof.
  destruct (handleMouseMove_hovers {| clientX := 410; clientY := 300 |}
              {| left := 0; top := 0 |} resting_state
              {| mouse_x := 400; mouse_y := 300; px := 0; py := 0;
                 vx := 0; vy := 0; isDown := false; targetPoint := None |})
    as (s' & m' & Hrun & _ & _ & Hpts & _ & Hm' & _ & _ & Hvx & _).
  - apply wf_reactor_800.
  - reflexivity.
  - apply none_held_no_target.
  - exists s', m'. auto.
Defined.

Lemma handleMouseUp_run (s : State) (m : Mouse) :
  mouse s = Some m ->
  handleMouseUp s
  = Some (tt, set_mouse (Some (mkMouse (mouse_x m) (mouse_y m) (px m) (py m)
                                       (vx m) (vy m) false None)) s).
Proof. intros Hm. cbv [handleMouseUp bind get lift modify]. rewrite Hm. reflexivity. Qed.

(** X14: a whole drag.  Press where a movable point is grabbed, move the
    pointer, let one tick run with the physics enabled, release: the
    grabbed point is where the move put it, at the pointer scaled by the
    pixel ratio and back (at pixel ratio 1 exactly where the pointer
    went), its velocity is zero, and no point is held any more. *)
Theorem drag_and_drop (e e' : MouseEvent) (rect : DOMRect) (s : State)
    (p1 p2 : Vec) (i : nat) :
  wf s -> enabled (physics s) = true ->
  controlPoint s 1 = Some p1 -> controlPoint s 2 = Some p2 ->
  grabbed (pointer e rect) p1 p2 = Some i ->
  exists s',
    (handleMouseDown e rect ;; handleMouseMove e' rect ;; updatePhysics ;;
     handleMouseUp) s = Some (tt, s') /\
    controlPoint s' i
    = Some {| x := (clientX e' - left rect) * dpi s / dpi s;
              y := (clientY e' - top rect) * dpi s / dpi s |} /\
    (dpi s = 1 -> controlPoint s' i = Some (pointer e' rect)) /\
    velocityOf s' i = Some {| x := 0; y := 0 |} /\
    none_held s' /\ pointer_down s' = false.
Proof.
  intros Hwf Hen Hc1 Hc2 Hg.
  destruct (handleMouseDown_view e rect s p1 p2 Hwf Hc1 Hc2)
    as (s1 & Hrun1 & Hwf1 & Hdown1 & Hheld1 & _ & Hph1).
  assert (dpi s1 = dpi s) as Hdpi1.
  { destruct (wf_mouse _ Hwf) as [m Hm].
    destruct (handleMouseDown_run e rect s m p1 p2 Hwf Hm Hc1 Hc2)
      as (s1' & ? & Hrun1' & (_ & _ & Hd & _) & _).
    assert (s1' = s1) as -> by congruence.
    apply dpi_frame. exact Hd. }
  assert (held s1 i) as Hheld by (apply Hheld1, Hg).
  destruct (nearest_grabbed (pointer e rect) p1 p2 s Hwf Hc1 Hc2) as (_ & Hrange).
  specialize (Hrange i Hg).
  destruct (handleMouseMove_drags e' rect s1 i Hwf1 Hheld Hdown1)
    as (s2 & Hrun2 & Hwf2 & Hheld2 & Hp2).
  rewrite Hdpi1 in Hp2.
  assert (enabled (physics s2) = true) as Hen2.
  { destruct (wf_mouse _ Hwf1) as [m1 Hm1].
    destruct (handleMouseMove_run e' rect s1 m1 Hm1)
      as (s2' & ? & ? & Hrun2' & (_ & _ & _ & _ & _ & Hph2 & _) & _).
    assert (s2' = s2) as -> by congruence.
    rewrite Hph2. unfold moved.
    destruct (isDown m1), (targetPoint m1); simpl; congruence. }
  destruct (updatePhysics_view s2 Hwf2)
    as (s3 & Hrun3 & Hwf3 & _ & _ & _ & _ & Hon & _).
  destruct (Hon Hen2 i _ Hrange Hp2 (or_introl Hheld2)) as [Hp3 Hv3].
  destruct (wf_mouse _ Hwf3) as [m3 Hm3].
  eexists. split.
  { rewrite (bind_Some _ _ _ _ _ Hrun1), (bind_Some _ _ _ _ _ Hrun2),
            (bind_Some _ _ _ _ _ Hrun3).
    apply (handleMouseUp_run s3 m3 Hm3). }
  split; [exact Hp3|].
  split.
  { intros Hd. change (controlPoint (set_mouse _ s3) i) with (controlPoint s3 i).
    rewrite Hp3, Hd, !Rmult_1_r, !Rdiv_1_r. reflexivity. }
  split; [exact Hv3|].
  split; [|reflexivity].
  intros j (m' & l & Hm' & _ & Ht). simpl in Hm'. injection Hm' as <-. discriminate.
Qed.

Lemma drag_and_drop_witness :
  exists s',
    (handleMouseDown {| clientX := 285; clientY := 130 |} {| left := 0; top := 0 |} ;;
     handleMouseMove {| clientX := 300; clientY := 250 |} {| left := 0; top := 0 |} ;;
     updatePhysics ;; handleMouseUp) resting_state = Some (tt, s') /\
    controlPoint s' 1 = Some {| x := 300 - 0; y := 250 - 0 |} /\
    velocityOf s' 1 = Some {| x := 0; y := 0 |}.
Proof.
  destruct (drag_and_drop {| clientX := 285; clientY := 130 |}
              {| clientX := 300; clientY := 250 |} {| left := 0; top := 0 |}
              resting_state {| x := 280; y := 120 |} {| x := 520; y := 120 |} 1)
    as (s' & Hrun & _ & Hp & Hv & _).
  - apply wf_reactor_800.
  - reflexivity.
  - reflexivity.
  - reflexivity.
  - unfold grabbed, distance, pointer. simpl.
    destruct (decide _) as [_|Hfar]; [reflexivity|]. exfalso. apply Hfar.
    replace ((280 - (285 - 0)) * ((280 - (285 - 0)) * 1)
             + (120 - (130 - 0)) * ((120 - (130 - 0)) * 1)) with 125 by ring.
    apply Rsqr_incrst_0; [|apply sqrt_pos|lra].
    rewrite Rsqr_sqrt by lra. unfold Rsqr. lra.
  - exists s'. split; [exact Hrun|]. split; [|exact Hv].
    apply Hp. unfold resting_state. apply dpi_reactor_800.
Defined.

(** ** Touch *)

Lemma handleTouchMove_run (e : TouchEvent) (rect : DOMRect) (s : State)
    (t : Touch) (m : Mouse) :
  touches e !! 0%nat = Some t -> mouse s = Some m ->
  let x1 := (touch_clientX t - left rect) * dpi s in
  let y1 := (touch_clientY t - top rect) * dpi s in
  let s1 := set_mouse (Some (reposition x1 y1 m)) s in
  handleTouchMove e rect s
  = Some (tt, match isDown m, targetPoint m with
              | true, Some target =>
                  set_heap (<[target := {| x := x1 / dpi s; y := y1 / dpi s |}]> (heap s)) s1
              | _, _ => s1
              end).
Proof.
  intros Ht Hm.
  cbv [handleTouchMove bind get lift modify store_point ret reposition].
  rewrite Ht, Hm. destruct (isDown m), (targetPoint m); reflexivity.
Qed.

(** X15: a touch move stores the touch in device units,
    [(clientX - rect.left) * dpi], and, while a point is held, puts that
    point at that number divided by [dpi] again, as a mouse drag does: at
    pixel ratio 1 exactly at the touch.  Unlike a mouse move it leaves the
    pointer's previous position and derived velocity, the particles and
    the random sequence untouched.  A touch event without touches makes
    the handler raise. *)
Theorem handleTouchMove_drags (e : TouchEvent) (rect : DOMRect) (s : State)
    (t : Touch) (m : Mouse) (i : nat) :
  wf s -> mouse s = Some m -> held s i -> isDown m = true ->
  (touches e !! 0%nat = Some t ->
   exists s' m',
     handleTouchMove e rect s = Some (tt, s') /\ wf s' /\ held s' i /\
     mouse_x m' = (touch_clientX t - left rect) * dpi s /\
     mouse_y m' = (touch_clientY t - top rect) * dpi s /\
     controlPoint s' i
     = Some {| x := mouse_x m' / dpi s; y := mouse_y m' / dpi s |} /\
     (dpi s = 1 -> controlPoint s' i = Some (touch_point t rect)) /\
     (forall j, j <> i -> controlPoint s' j = controlPoint s j) /\
     physics s' = physics s /\ particles s' = particles s /\
     random s' = random s /\
     mouse s' = Some m' /\
     px m' = px m /\ py m' = py m /\ vx m' = vx m /\ vy m' = vy m) /\
  (touches e = [] -> handleTouchMove e rect s = None).
Proof.
  intros Hwf Hm (m0 & l & Hm0 & Hl & Ht) Hdown.
  assert (m0 = m) as -> by congruence.
  split.
  - intros Htouch. rewrite (handleTouchMove_run e rect s t m Htouch Hm).
    rewrite Hdown, Ht.
    eexists _, (reposition ((touch_clientX t - left rect) * dpi s)
                           ((touch_clientY t - top rect) * dpi s) m).
    split; [reflexivity|].
    assert ((l < length (heap s))%nat) as Hlen.
    { destruct (wf_controlPoint s i Hwf) as (l' & p & Hl' & Hp & _).
      - destruct Hwf as [(l0 & l1 & l2 & l3 & Hcps & _) _ _ _].
        unfold controlPointRef in Hl. rewrite Hcps in Hl. simpl in Hl.
        apply lookup_lt_Some in Hl. exact Hl.
      - assert (l' = l) as -> by congruence. eapply lookup_lt_Some, Hp. }
    split.
    { apply (wf_transport s); simpl; rewrite ?length_insert; eauto. }
    split.
    { eexists _, l. split; [reflexivity|]. split; [exact Hl|exact Ht]. }
    split; [reflexivity|]. split; [reflexivity|].
    match goal with
    | |- controlPoint ?st i = Some ?p /\ _ =>
        assert (controlPoint st i = Some p) as Hpos
    end.
    { unfold controlPoint, controlPointRef. simpl. fold (controlPointRef s i).
      rewrite Hl. simpl. apply list_lookup_insert_eq, Hlen. }
    split; [exact Hpos|].
    split.
    { intros Hd. rewrite Hpos. simpl. unfold touch_point.
      rewrite Hd, !Rmult_1_r, !Rdiv_1_r. reflexivity. }
    split.
    { intros j Hj. unfold controlPoint, controlPointRef. simpl.
      fold (controlPointRef s j).
      destruct (controlPointRef s j) as [lj|] eqn:Hlj; [simpl|reflexivity].
      apply list_lookup_insert_ne. intros ->. apply Hj.
      eapply wf_distinct; eassumption. }
    simpl. repeat split; reflexivity.
  - intros Hnil. cbv [handleTouchMove bind lift]. rewrite Hnil. reflexivity.
Qed.

Lemma handleTouchMove_drags_witness :
  exists s' m',
    handleTouchMove {| touches := [ {| touch_clientX := 310; touch_clientY := 215 |} ] |}
                    {| left := 10; top := 15 |} (dragging_state true)
    = Some (tt, s') /\
    controlPoint s' 1 = Some {| x := 310 - 10; y := 215 - 15 |} /\
    mouse s' = Some m' /\ vx m' = 0.
Proof.
  destruct (handleTouchMove_drags
              {| touches := [ {| touch_clientX := 310; touch_clientY := 215 |} ] |}
              {| left := 10; top := 15 |} (dragging_state true)
              {| touch_clientX := 310; touch_clientY := 215 |}
              {| mouse_x := 400; mouse_y := 300; px := 0; py := 0;
                 vx := 0; vy := 0; isDown := true; targetPoint := Some 1%nat |} 1)
    as [Hmove _].
  - apply wf_reactor_800.
  - reflexivity.
  - apply held_dragging_state.
  - reflexivity.
  - destruct (Hmove eq_refl)
      as (s' & m' & Hrun & _ & _ & _ & _ & _ & Hp & _ & _ & _ & _ & Hm' & _ & _
          & Hvx & _).
    exists s', m'. split; [exact Hrun|]. split; [|auto].
    apply Hp. unfold dragging_state. apply dpi_reactor_800.
Defined.

(** X16: a touch start presses the pointer at the touch and grabs P1 or P2
    by the same 30-unit rule as a mouse press, P1 first; it moves no
    control point and, unlike a mouse press, spawns no particles. *)
Theorem handleTouchStart_grabs (e : TouchEvent) (rect : DOMRect) (s : State)
    (t : Touch) (p1 p2 : Vec) :
  wf s -> controlPoint s 1 = Some p1 -> controlPoint s 2 = Some p2 ->
  touches e !! 0%nat = Some t ->
  exists s',
    handleTouchStart e rect s = Some (tt, s') /\ wf s' /\
    pointer_down s' = true /\
    (forall i, held s' i <-> grabbed (touch_point t rect) p1 p2 = Some i) /\
    (forall i, controlPoint s' i = controlPoint s i) /\
    physics s' = physics s /\ particles s' = particles s /\
    random s' = random s.
Proof.
  intros Hwf Hc1 Hc2 Ht. destruct (wf_mouse _ Hwf) as [m Hm].
  destruct (nearest_grabbed (touch_point t rect) p1 p2 s Hwf Hc1 Hc2)
    as (Hnear & Hrange).
  cbv [handleTouchStart bind get lift modify getNearestControlPoint].
  rewrite Ht, Hm. cbn [mouse set_mouse mouse_x mouse_y].
  match goal with
  | |- context [nearestAmong _ ?a ?b 30 ?st] =>
      change (nearestAmong [1; 2]%nat a b 30 st)
        with (nearestAmong [1; 2]%nat a b 30 s);
      replace a with (x (touch_point t rect))
        by (symmetry; apply (cancel_dpi _ s));
      replace b with (y (touch_point t rect))
        by (symmetry; apply (cancel_dpi _ s))
  end.
  rewrite Hnear. eexists. split; [reflexivity|].
  split; [do 2 apply wf_set_mouse; exact Hwf|].
  split; [reflexivity|].
  split.
  { intros i. unfold held. simpl. split.
    - intros (m' & l & [= <-] & Hl' & Ht'). simpl in Ht'.
      destruct (grabbed (touch_point t rect) p1 p2) as [j|]; [|discriminate].
      simpl in Ht'. f_equal. eapply wf_distinct; eassumption.
    - intros Hg. destruct (Hrange i Hg) as [-> | ->].
      + destruct (wf_controlPoint s 1 Hwf ltac:(lia)) as (l & ? & Hl' & _).
        eexists _, l. split; [reflexivity|]. split; [exact Hl'|].
        simpl. rewrite Hg. exact Hl'.
      + destruct (wf_controlPoint s 2 Hwf ltac:(lia)) as (l & ? & Hl' & _).
        eexists _, l. split; [reflexivity|]. split; [exact Hl'|].
        simpl. rewrite Hg. exact Hl'. }
  repeat split; reflexivity.
Qed.

Lemma handleTouchStart_grabs_witness :
  exists s',
    handleTouchStart {| touches := [ {| touch_clientX := 285; touch_clientY := 130 |} ] |}
                     {| left := 0; top := 0 |} resting_state = Some (tt, s') /\
    pointer_down s' = true /\ particles s' = particles resting_state.
Proof.
  destruct (handleTouchStart_grabs
              {| touches := [ {| touch_clientX := 285; touch_clientY := 130 |} ] |}
              {| left := 0; top := 0 |} resting_state
              {| touch_clientX := 285; touch_clientY := 130 |}
              {| x := 280; y := 120 |} {| x := 520; y := 120 |})
    as (s' & Hrun & _ & Hdown & _ & _ & _ & Hpart & _).
  - apply wf_reactor_800.
  - reflexivity.
  - reflexivity.
  - reflexivity.
  - exists s'. auto.
Defined.

(** ** Reset *)

Lemma reset_view (s : State) :
  wf s ->
  exists s',
    reset s = Some (tt, s') /\ wf s' /\
    controlPoints s' = Some (seq (length (heap s)) 4) /\
    (forall i, (i < 4)%nat -> controlPoint s' i = initialPoints s !! i) /\
    initialPoints s' = initialPoints s /\
    canvas s' = canvas s /\ devicePixelRatio s' = devicePixelRatio s /\
    mouse s' = mouse s /\
    physics s'
    = set_velocities [ {| x := 0; y := 0 |}; {| x := 0; y := 0 |} ] (physics s) /\
    length (plist (particles s'))
    = (if particles_enabled (particles s) then 30%nat else 0%nat).
Proof.
  intros Hwf. pose proof (wf_rest _ Hwf) as Hr.
  cbv [reset bind get modify]. rewrite JSON_copy_spec.
  cbn [particles set_particles set_physics set_controlPoints set_heap
       particles_enabled set_plist canvas].
  match goal with
  | |- context [(if ?c then createParticles ?a ?b ?n else ret tt) ?st] =>
      destruct (maybe_createParticles_len c a b n st)
        as (s' & new & Hrun & Hcore & Hl & Hlen)
  end.
  exists s'. split; [exact Hrun|].
  pose proof Hcore as (Hc1 & Hc2 & Hc3 & Hc4 & Hc5 & Hc6 & Hc7 & _).
  simpl in Hc1, Hc2, Hc3, Hc4, Hc5, Hc6, Hc7, Hl, Hlen.
  split.
  { eapply wf_same_core; [exact Hcore|]. rewrite Hr.
    pose proof (wf_fresh_points s (initialPoints s) Hr Hr
                  (wf_velocities _ Hwf) (wf_mouse _ Hwf)) as [Hp _ _ Hm].
    split; simpl; auto. }
  split; [rewrite Hc5, Hr; reflexivity|].
  split.
  { intros i Hi. rewrite (same_core_controlPoint _ _ _ Hcore).
    unfold controlPoint, controlPointRef. simpl.
    apply fresh_points_lookup. lia. }
  repeat (split; [assumption|]).
  rewrite Hl, Hlen. simpl.
  destruct (particles_enabled (particles s)); reflexivity.
Qed.

(** X17: reset puts all four control points at the rest pose, zeroes both
    velocities and replaces the particles by a burst of 30 (by nothing when
    the effects are off), whatever the state was; it keeps stiffness,
    damping, influence, the pause switch and the pointer as they are. *)
Theorem reset_restores (s : State) :
  wf s ->
  exists s',
    reset s = Some (tt, s') /\ wf s' /\
    (forall i, (i < 4)%nat -> controlPoint s' i = initialPoints s' !! i) /\
    initialPoints s' = initialPoints s /\
    velocityOf s' 1 = Some {| x := 0; y := 0 |} /\
    velocityOf s' 2 = Some {| x := 0; y := 0 |} /\
    enabled (physics s') = enabled (physics s) /\
    stiffness (physics s') = stiffness (physics s) /\
    damping (physics s') = damping (physics s) /\
    mouseInfluence (physics s') = mouseInfluence (physics s) /\
    mouse s' = mouse s /\
    length (plist (particles s'))
    = (if particles_enabled (particles s) then 30%nat else 0%nat).
Proof.
  intros Hwf.
  destruct (reset_view s Hwf)
    as (s' & Hrun & Hwf' & _ & Hpts & Hi & _ & _ & Hm & Hph & Hlen).
  exists s'. split; [exact Hrun|]. split; [exact Hwf'|].
  split; [intros i Hlt; rewrite Hi; apply Hpts, Hlt|].
  split; [exact Hi|]. unfold velocityOf. rewrite Hph. simpl.
  repeat (split; [reflexivity|]). split; assumption.
Qed.

Lemma reset_restores_witness :
  exists s',
    reset moving_state = Some (tt, s') /\
    controlPoint s' 1 = initialPoints s' !! 1%nat /\
    velocityOf s' 1 = Some {| x := 0; y := 0 |}.
Proof.
  destruct (reset_restores moving_state) as (s' & Hrun & _ & Hpts & _ & Hv & _).
  - apply wf_reactor_800.
  - exists s'. split; [exact Hrun|]. split; [apply Hpts; lia|exact Hv].
Defined.

(** X18: reset makes new point objects, so a point that was held is held no
    more although the button is still down: after a reset, mouse moves
    write into the old object and all four control points stay at the rest
    pose (until the next press). *)
Theorem reset_releases (e : MouseEvent) (rect : DOMRect) (s : State) :
  wf s -> target_allocated s ->
  exists s',
    (reset ;; handleMouseMove e rect) s = Some (tt, s') /\
    none_held s' /\ pointer_down s' = pointer_down s /\
    (forall i, (i < 4)%nat -> controlPoint s' i = initialPoints s' !! i).
Proof.
  intros Hwf Halloc.
  destruct (reset_view s Hwf)
    as (s1 & Hrun1 & Hwf1 & Hcps & Hpts & Hi & _ & _ & Hm & _).
  assert (none_held s1) as Hnone.
  { intros i (m & l & Hm1 & Hl & Ht).
    unfold controlPointRef in Hl. rewrite Hcps in Hl.
    cbn [mbind option_bind] in Hl. apply lookup_seq in Hl as [-> _].
    rewrite Hm in Hm1. specialize (Halloc m _ Hm1 Ht). lia. }
  destruct (handleMouseMove_hover_view e rect s1 Hwf1 Hnone)
    as (s' & Hrun & _ & Hnone' & Hpts' & Hi' & _).
  exists s'. rewrite (bind_Some _ _ _ _ _ Hrun1).
  split; [exact Hrun|]. split; [exact Hnone'|].
  split.
  { destruct (wf_mouse _ Hwf1) as [m1 Hm1].
    destruct (handleMouseMove_run e rect s1 m1 Hm1)
      as (s'' & m' & ? & Hrun' & _ & Hm' & _ & _ & _ & _ & _ & _ & Hd & _).
    assert (s'' = s') as -> by congruence.
    unfold pointer_down. rewrite Hm', <- Hm, Hm1. exact Hd. }
  intros i Hlt. rewrite Hpts', Hi', Hi. apply Hpts, Hlt.
Qed.

Lemma target_allocated_dragging_state : target_allocated (dragging_state true).
Proof. intros m l [= <-] [= <-]. simpl. lia. Qed.

Lemma reset_releases_witness :
  exists s',
    (reset ;; handleMouseMove {| clientX := 50; clientY := 60 |}
                              {| left := 0; top := 0 |})
      (dragging_state true) = Some (tt, s') /\
    none_held s' /\ pointer_down s' = true.
Proof.
  destruct (reset_releases {| clientX := 50; clientY := 60 |}
              {| left := 0; top := 0 |} (dragging_state true))
    as (s' & Hrun & Hnone & Hdown & _).
  - apply wf_reactor_800.
  - apply target_allocated_dragging_state.
  - exists s'. auto.
Defined.



(** ** Presets *)

(** X20: applying one of the six named presets sets stiffness, damping and
    influence to that row of the table and nothing else of the simulation:
    the points, their velocities, the pause switch and the pointer stay,
    and a burst of 20 particles is added when the effects are on. *)
Theorem applyPreset_sets (name : string) (p : Preset) (s : State) :
  own_property name presets = Some p ->
  exists s',
    applyPreset name s = Some (tt, s') /\
    stiffness (physics s') = preset_stiffness p /\
    damping (physics s') = preset_damping p /\
    mouseInfluence (physics s') = preset_influence p /\
    enabled (physics s') = enabled (physics s) /\
    velocities (physics s') = velocities (physics s) /\
    heap s' = heap s /\ controlPoints s' = controlPoints s /\
    initialPoints s' = initialPoints s /\ mouse s' = mouse s /\
    canvas s' = canvas s /\
    length (plist (particles s'))
    = (length (plist (particles s))
       + (if particles_enabled (particles s) then 20 else 0))%nat.
Proof.
  intros Hown. unfold applyPreset, presets_get. rewrite Hown.
  cbv [bind modify get]. cbn [particles set_physics canvas].
  match goal with
  | |- context [(if ?c then createParticles ?a ?b ?n else ret tt) ?st] =>
      destruct (maybe_createParticles_len c a b n st)
        as (s' & new & Hrun & Hcore & Hl & Hlen)
  end.
  exists s'. split; [exact Hrun|].
  destruct Hcore as (Hc1 & Hc2 & _ & Hc4 & Hc5 & Hc6 & Hc7 & _).
  simpl in Hc1, Hc2, Hc4, Hc5, Hc6, Hc7, Hl, Hlen.
  rewrite Hc6. simpl. repeat (split; [first [reflexivity|assumption]|]).
  rewrite Hl, length_app, Hlen.
  destruct (particles_enabled (particles s)); reflexivity.
Qed.

Lemma applyPreset_sets_witness :
  exists s',
    applyPreset "stiff" moving_state = Some (tt, s') /\
    stiffness (physics s') = 0.1 /\
    damping (physics s') = 0.95 /\
    mouseInfluence (physics s') = 0.3.
Proof.
  destruct (applyPreset_sets "stiff"
              {| preset_stiffness := 0.1; preset_damping := 0.95;
                 preset_influence := 0.3 |} moving_state)
    as (s' & Hrun & Hk & Hd & Hi & _).
  - reflexivity.
  - exists s'. auto.
Defined.

Lemma own_property_None (name : string) (table : list (string * Preset)) :
  name ∉ table.*1 -> own_property name table = None.
Proof.
  induction table as [|[k p] table IH]; intros Hnot; [reflexivity|].
  simpl. destruct (decide (k = name)) as [->|Hne].
  - exfalso. apply Hnot. simpl. left.
  - apply IH. intros Hin. apply Hnot. simpl. right. exact Hin.
Qed.

(** X21: a name that is neither a preset nor a property every object
    inherits changes nothing at all, not even the particles; a name such as
    "constructor" or "toString", which the table object inherits, makes
    [applyPreset] raise. *)
Theorem applyPreset_other_names (name : string) (s : State) :
  name ∉ presets.*1 ->
  (name ∉ Object_prototype -> applyPreset name s = Some (tt, s)) /\
  (name ∈ Object_prototype -> applyPreset name s = None).
Proof.
  intros Hnot. unfold applyPreset, presets_get.
  rewrite (own_property_None name presets Hnot).
  split; intros H; destruct (decide (name ∈ Object_prototype));
    try contradiction; reflexivity.
Qed.

Lemma applyPreset_other_names_witness :
  applyPreset "turbo" moving_state = Some (tt, moving_state) /\
  applyPreset "constructor" moving_state = None.
Proof.
  split.
  - apply (applyPreset_other_names "turbo" moving_state).
    + apply (bool_decide_unpack _). reflexivity.
    + apply (bool_decide_unpack _). reflexivity.
  - apply (applyPreset_other_names "constructor" moving_state).
    + apply (bool_decide_unpack _). reflexivity.
    + apply (bool_decide_unpack _). reflexivity.
Defined.

(** ** Tangent marks *)

(** X22: when all four control points coincide every tangent is the zero
    vector; [drawTangents] then only sets its three stroke attributes,
    draws nothing and divides by nothing. *)
Theorem drawTangents_degenerate (s : State) (p : Vec) :
  (forall i, (i < 4)%nat -> controlPoint s i = Some p) ->
  drawTangents s
  = Some [ SetStrokeStyle "#f59e0b"; SetLineWidth 2; SetLineCap "round" ].
Proof.
  intros Hp.
  assert (forall t, drawTangentAt t s = Some []) as Hmark.
  { intros t. unfold drawTangentAt, calculateBezierPoint, calculateBezierTangent.
    rewrite (Hp 0%nat), (Hp 1%nat), (Hp 2%nat), (Hp 3%nat) by lia. simpl.
    match goal with
    | |- context [sqrt ?a] => replace a with 0 by ring
    end.
    rewrite sqrt_0. destruct (decide (0 = 0)); [reflexivity|contradiction]. }
  unfold drawTangents, tangentPoints. simpl. rewrite !Hmark. reflexivity.
Qed.

Lemma drawTangents_degenerate_witness :
  drawTangents collapsed_state
  = Some [ SetStrokeStyle "#f59e0b"; SetLineWidth 2; SetLineCap "round" ].
Proof.
  apply (drawTangents_degenerate collapsed_state {| x := 400; y := 300 |}).
  intros i Hi. destruct i as [|[|[|[|i]]]]; try reflexivity. lia.
Defined.

(** X23: where the tangent is not zero, the mark drawn at parameter [t] is
    a stroke of length 50 centred on the curve point and pointing along the
    tangent, followed by a disc of radius 4 on the curve point. *)
Theorem drawTangentAt_mark (t : R) (s : State) (point tangent : Vec) :
  calculateBezierPoint t s = Some point ->
  calculateBezierTangent t s = Some tangent ->
  tangent <> {| x := 0; y := 0 |} ->
  exists ax ay bx by_,
    drawTangentAt t s
    = Some [ BeginPath; MoveTo ax ay; LineTo bx by_; Stroke;
             BeginPath; Arc (x point) (y point) 4 0 (PI * 2);
             SetFillStyle "#f59e0b"; Fill ] /\
    ax + bx = 2 * x point /\ ay + by_ = 2 * y point /\
    (bx - ax) ^ 2 + (by_ - ay) ^ 2 = 50 ^ 2 /\
    (bx - ax) * y tangent = (by_ - ay) * x tangent /\
    0 < (bx - ax) * x tangent + (by_ - ay) * y tangent.
Proof.
  intros Hpoint Htangent Hnz.
  unfold drawTangentAt. rewrite Hpoint, Htangent. simpl.
  assert (0 < x tangent * x tangent + y tangent * y tangent) as Hn2.
  { destruct (Req_dec_T (x tangent) 0) as [Hx|Hx].
    - destruct (Req_dec_T (y tangent) 0) as [Hy|Hy].
      + exfalso. apply Hnz. apply Vec_eq; assumption.
      + rewrite Hx. nra.
    - nra. }
  pose proof (sqrt_lt_R0 _ Hn2) as Hlen.
  pose proof (sqrt_sqrt _ (Rlt_le _ _ Hn2)) as Hsq.
  revert Hlen Hsq.
  generalize (sqrt (x tangent * x tangent + y tangent * y tangent)).
  intros L Hlen Hsq.
  destruct (decide (L = 0)) as [H0|_]; [lra|].
  assert (x tangent / L * (x tangent / L) + y tangent / L * (y tangent / L) = 1)
    as Hunit.
  { transitivity ((x tangent * x tangent + y tangent * y tangent) / (L * L));
      [field; lra|]. rewrite Hsq. field. lra. }
  assert (x tangent = x tangent / L * L) as Hx by (field; lra).
  assert (y tangent = y tangent / L * L) as Hy by (field; lra).
  revert Hunit Hx Hy. generalize (x tangent / L) (y tangent / L).
  intros nx ny Hunit Hx Hy.
  eexists _, _, _, _. split; [reflexivity|].
  split; [ring|]. split; [ring|].
  split.
  { transitivity (50 ^ 2 * (nx * nx + ny * ny)); [ring|]. rewrite Hunit. ring. }
  split.
  { rewrite Hx, Hy. ring. }
  assert ((x point + nx * 25 - (x point - nx * 25)) * x tangent
          + (y point + ny * 25 - (y point - ny * 25)) * y tangent
          = 50 * L * (nx * nx + ny * ny)) as ->.
  { rewrite Hx, Hy. ring. }
  rewrite Hunit. lra.
Qed.

Lemma drawTangentAt_mark_witness :
  exists ax ay bx by_,
    drawTangentAt 0.5 resting_state
    = Some [ BeginPath; MoveTo ax ay; LineTo bx by_; Stroke;
             BeginPath; Arc (x {| x := 400; y := 180 |}) (y {| x := 400; y := 180 |})
                            4 0 (PI * 2);
             SetFillStyle "#f59e0b"; Fill ] /\
    (bx - ax) ^ 2 + (by_ - ay) ^ 2 = 50 ^ 2.
Proof.
  destruct (drawTangentAt_mark 0.5 resting_state {| x := 400; y := 180 |}
              {| x := 600; y := 0 |})
    as (ax & ay & bx & by_ & Hrun & _ & _ & Hlen & _).
  - unfold calculateBezierPoint. simpl. f_equal. apply Vec_eq; simpl; lra.
  - unfold calculateBezierTangent. simpl. f_equal. apply Vec_eq; simpl; lra.
  - intros H. injection H as H. lra.
  - exists ax, ay, bx, by_. auto.
Defined.

(** ** Release *)

(** Releasing, by mouse up, by the mouse leaving the surface or by the end
    of a touch, is one and the same operation: the button is up and nothing
    is held, while every point stays where it was dropped and the pointer
    keeps its position and velocity. *)
Lemma release_handlers (s : State) (m : Mouse) :
  mouse s = Some m ->
  exists s',
    handleMouseUp s = Some (tt, s') /\
    handleMouseLeave s = Some (tt, s') /\
    handleTouchEnd s = Some (tt, s') /\
    none_held s' /\ pointer_down s' = false /\
    heap s' = heap s /\ controlPoints s' = controlPoints s /\
    physics s' = physics s /\ particles s' = particles s /\
    mouse s' = Some (mkMouse (mouse_x m) (mouse_y m) (px m) (py m)
                             (vx m) (vy m) false None).
Proof.
  intros Hm. eexists. split; [apply (handleMouseUp_run s m Hm)|].
  split; [cbv [handleMouseLeave bind get lift modify]; rewrite Hm; reflexivity|].
  split; [cbv [handleTouchEnd bind get lift modify]; rewrite Hm; reflexivity|].
  split.
  { intros j (m' & l & Hm' & _ & Ht). simpl in Hm'. injection Hm' as <-.
    discriminate. }
  repeat split; reflexivity.
Qed.

Lemma release_handlers_witness :
  exists s',
    handleMouseLeave (dragging_state true) = Some (tt, s') /\
    none_held s' /\ heap s' = heap (dragging_state true).
Proof.
  destruct (release_handlers (dragging_state true)
              {| mouse_x := 400; mouse_y := 300; px := 0; py := 0;
                 vx := 0; vy := 0; isDown := true; targetPoint := Some 1%nat |})
    as (s' & _ & Hleave & _ & Hnone & _ & Hheap & _).
  - reflexivity.
  - exists s'. auto.
Defined.

(** ** A tick with the particle effects off *)

Lemma updatePoint_quiet (j : nat) (s : State) :
  wf s -> j = 1%nat \/ j = 2%nat ->
  particles_enabled (particles s) = false ->
  exists s',
    updatePoint j s = Some (tt, s') /\
    particles s' = particles s /\ random s' = random s.
Proof.
  intros Hwf Hj Hoff.
  destruct (wf_controlPoint s j Hwf ltac:(lia)) as (l & p & Hl & Hp & Hcp).
  destruct (lookup_lt_is_Some_2 (velocities (physics s)) (j - 1)) as [v Hv].
  { rewrite (wf_velocities _ Hwf). lia. }
  destruct (wf_mouse _ Hwf) as [m Hm].
  destruct (lookup_lt_is_Some_2 (initialPoints s) j) as [rest Hrest].
  { rewrite (wf_rest _ Hwf). lia. }
  unfold updatePoint, bind, get, lift. rewrite Hl, Hv, Hm.
  destruct (decide (targetPoint m = Some l)) as [Hheld|Hfree].
  - eexists. split; [reflexivity|]. split; reflexivity.
  - rewrite Hp, Hrest, Hoff.
    destruct (decide (j = 1%nat)); cbv beta iota zeta;
      (match goal with
       | |- context [applyBoundaries s ?a ?b] =>
           destruct (applyBoundaries s a b) as [p' v']
       end);
      eexists; (split; [reflexivity|]); split; reflexivity.
Qed.

(** X24: with the physics enabled and the particle effects off, a tick
    spawns nothing and draws no random number, yet it still ages the
    particles that are left: the collection afterwards is the advanced
    particles with life above zero. *)
Theorem updatePhysics_quiet (s : State) :
  wf s -> enabled (physics s) = true ->
  particles_enabled (particles s) = false ->
  exists s',
    updatePhysics s = Some (tt, s') /\
    plist (particles s')
    = filter (fun p => 0 < life p) (advance <$> plist (particles s)) /\
    particles_enabled (particles s') = false /\
    random s' = random s.
Proof.
  intros Hwf Hen Hoff.
  destruct (updatePoint_quiet 1 s Hwf ltac:(auto) Hoff) as (s1 & Hrun1 & Hp1 & Hr1).
  destruct (updatePoint_view 1 s Hwf ltac:(auto)) as (s1' & Hrun1' & Hwf1 & _).
  assert (s1' = s1) as -> by congruence.
  destruct (updatePoint_quiet 2 s1 Hwf1 ltac:(auto)) as (s2 & Hrun2 & Hp2 & Hr2);
    [rewrite Hp1; exact Hoff|].
  destruct (updateParticles_ok s2) as (s3 & Hrun3 & Hcore3 & Hr3 & Hl3).
  exists s3. split.
  { unfold updatePhysics, bind at 1, get. rewrite Hen.
    cbv beta iota delta [negb].
    assert (for_each [1; 2]%nat updatePoint s = Some (tt, s2)) as Hloop.
    { simpl. rewrite (bind_Some _ _ _ _ _ Hrun1), (bind_Some _ _ _ _ _ Hrun2).
      reflexivity. }
    rewrite (bind_Some _ _ _ _ _ Hloop). exact Hrun3. }
  split; [rewrite Hl3, Hp2, Hp1; reflexivity|].
  split.
  { destruct Hcore3 as (_ & _ & _ & _ & _ & _ & _ & -> & _).
    rewrite Hp2, Hp1. exact Hoff. }
  congruence.
Qed.

Lemma wf_muted_state : wf muted_state.
Proof.
  destruct (wf_reactor_800 true true {| x := 700; y := 40 |}
              {| x := 90; y := -25 |} false None) as [Hp Hr Hv Hm].
  split; assumption.
Qed.

(** P1 is moving fast enough for a spawn and two particles are in flight:
    nothing is spawned, the first particle expires and the second one is
    advanced. *)
Lemma updatePhysics_quiet_witness :
  exists s' p,
    updatePhysics muted_state = Some (tt, s') /\
    plist (particles s') = [p] /\
    part_x p = 410 + -1 /\ life p = 0.9 - 0.01 /\
    random s' = random muted_state.
Proof.
  destruct (updatePhysics_quiet muted_state) as (s' & Hrun & Hl & _ & Hr).
  - apply wf_muted_state.
  - reflexivity.
  - reflexivity.
  - exists s', (advance {| part_x := 410; part_y := 290; part_vx := -1;
                          part_vy := 0; life := 0.9; decay := 0.01; size := 4;
                          color := Some "#10b981"%string; rotation := 1 |}).
    split; [exact Hrun|]. split; [|split; [reflexivity|split; [reflexivity|exact Hr]]].
    rewrite Hl. unfold muted_state, sparks. simpl.
    rewrite filter_cons_False by (simpl; lra).
    rewrite filter_cons_True by (simpl; lra).
    reflexivity.
Defined.
